(** * turing-payments-rails: command pipeline and emission gate

    A shallow embedding of
      - src/emit/validateEvent.ts  (schema registry, [validateEvent],
        [toSnakeCase], [toPascalCase], [getSupportedEventTypes]),
      - the emission guard ([setPublisher], [emitEvent]),
      - src/command/CommandIdempotencyStore.ts,
      - src/command/CommandRejectedEmitter.ts,
      - src/command/CommandHandler.ts,
    followed by the properties of the pipeline.

    Conventions.  Strings are byte strings; the case conversions of
    JavaScript are modelled on the ASCII letters only.  A call that may
    throw returns a [Completion].  Mutable module state (the store's map,
    the console, the uuid generator, the clock, the publisher) is threaded
    explicitly. *)

From Stdlib Require Import ZArith Ascii String List Bool Lia.
From stdpp Require Import base option list strings gmap fin_maps pretty.

Set Default Proof Using "Type".
Set Warnings "-register-all,-clear-no-such-hyp".
Local Open Scope Z_scope.

(* ===================================================================== *)
(** * JavaScript values, strings and completions                          *)
(* ===================================================================== *)

Module Js.

(** A number is kept by the text [String(n)] gives for it ("0", "100.5",
    "1e+21", "NaN"), which is what a template literal prints: the
    pipeline prints numbers, stores them and tests them for truth, and
    never computes with them. *)
Record Number : Type := { text : string }.

(** The literal [0]. *)
Definition zero : Number := {| text := "0" |}.

(** The values the pipeline inspects: events are objects, their fields
    are strings, numbers, nested objects or absent. *)
Inductive Val : Type :=
| Undefined
| Null
| Bool (b : bool)
| Num (n : Number)
| Str (s : string)
| Arr (xs : list Val)
| Obj (fields : list (string * Val)).

(** A thrown value that is no object: [throw 'boom'], [throw 42],
    [throw undefined]. *)
Inductive Prim : Type :=
| PUndefined
| PNull
| PBool (b : bool)
| PNum (n : Number)
| PStr (s : string).

(** What a [throw] may carry: an error object with its [message]
    ([TypeError] is what the runtime raises when a property or method is
    looked up on a value without it), or a primitive, which has none. *)
Inductive Err : Type :=
| Error (message : string)
| TypeError (message : string)
| Thrown (p : Prim).

(** Whether [e.message] is a string. *)
Definition has_message (e : Err) : bool :=
  match e with Thrown _ => false | _ => true end.

(** [e.message] of an error object; a primitive has none and nothing
    reads this value for one. *)
Definition message (e : Err) : string :=
  match e with Error m => m | TypeError m => m | Thrown _ => EmptyString end.

(** The [TypeError] raised by evaluating [p.message.includes(...)] on a
    primitive [p]: reading [message] fails on [undefined] and [null], and
    gives [undefined], on which [includes] cannot be read, on the others. *)
Definition message_includes_fails (p : Prim) : Err :=
  match p with
  | PUndefined =>
      TypeError "Cannot read properties of undefined (reading 'message')"
  | PNull => TypeError "Cannot read properties of null (reading 'message')"
  | _ => TypeError "Cannot read properties of undefined (reading 'includes')"
  end.

(** Outcome of a call: a returned value or a thrown error.  For an
    [async] function [Return] is a fulfilled and [Throw] a rejected
    promise. *)
Inductive Completion (A : Type) : Type :=
| Return (a : A)
| Throw (e : Err).
Arguments Return {A} a.
Arguments Throw {A} e.

(** [!v] is [negb (truthy v)]. *)
Definition truthy (v : Val) : bool :=
  match v with
  | Undefined | Null => false
  | Bool b => b
  | Num n => negb (String.eqb (text n) "0" || String.eqb (text n) "NaN")
  | Str s => negb (String.eqb s "")
  | Arr _ | Obj _ => true
  end.

(** [typeof v === 'object'] *)
Definition is_object (v : Val) : bool :=
  match v with
  | Null | Arr _ | Obj _ => true
  | _ => false
  end.

Fixpoint assoc (k : string) (fs : list (string * Val)) : option Val :=
  match fs with
  | [] => None
  | (k', v) :: fs' => if String.eqb k k' then Some v else assoc k fs'
  end.

(** Property read [v.k] on an object literal: the value or [undefined]. *)
Definition get (k : string) (v : Val) : Val :=
  match v with
  | Obj fs => default Undefined (assoc k fs)
  | _ => Undefined
  end.

(** ** String.prototype methods *)

Definition is_upper (c : ascii) : bool :=
  let n := nat_of_ascii c in (Nat.leb 65 n && Nat.leb n 90)%bool.

Definition is_lower (c : ascii) : bool :=
  let n := nat_of_ascii c in (Nat.leb 97 n && Nat.leb n 122)%bool.

Definition is_digit (c : ascii) : bool :=
  let n := nat_of_ascii c in (Nat.leb 48 n && Nat.leb n 57)%bool.

(** A byte that is a character of its own.  The case conversions below
    are those of JavaScript on strings of such bytes; a string with other
    bytes (part of a character beyond ASCII) is outside what they model. *)
Definition is_ascii (c : ascii) : bool := Nat.ltb (nat_of_ascii c) 128.

Definition lower_char (c : ascii) : ascii :=
  if is_upper c then ascii_of_nat (nat_of_ascii c + 32) else c.

Definition upper_char (c : ascii) : ascii :=
  if is_lower c then ascii_of_nat (nat_of_ascii c - 32) else c.

Fixpoint toLowerCase (s : string) : string :=
  match s with
  | EmptyString => EmptyString
  | String c r => String (lower_char c) (toLowerCase r)
  end.

(** [s.includes(needle)] *)
Fixpoint includes (needle s : string) : bool :=
  if String.prefix needle s then true
  else match s with
       | EmptyString => false
       | String _ r => includes needle r
       end.

Fixpoint drop (n : nat) (s : string) : string :=
  match n, s with
  | O, _ => s
  | S n', String _ r => drop n' r
  | S _, EmptyString => EmptyString
  end.

(** [s.replace(pat, rep)] with a string pattern: first occurrence only. *)
Fixpoint replace (pat rep s : string) : string :=
  if String.prefix pat s then rep +:+ drop (String.length pat) s
  else match s with
       | EmptyString => EmptyString
       | String c r => String c (replace pat rep r)
       end.

(** [s.endsWith(suffix)] *)
Definition endsWith (suffix s : string) : bool :=
  let n := String.length s in
  let m := String.length suffix in
  (Nat.leb m n && String.eqb (drop (n - m) s) suffix)%bool.

(** [s.split(sep)] for a one-character separator; never the empty list. *)
Fixpoint split (sep : ascii) (s : string) : list string :=
  match s with
  | EmptyString => [EmptyString]
  | String c r =>
      if Ascii.eqb c sep then EmptyString :: split sep r
      else match split sep r with
           | w :: ws => String c w :: ws
           | [] => [String c EmptyString]
           end
  end.

Fixpoint all_chars (p : ascii -> bool) (s : string) : bool :=
  match s with
  | EmptyString => true
  | String c r => (p c && all_chars p r)%bool
  end.

(** [words.join('')] *)
Definition join (ws : list string) : string :=
  fold_right String.append EmptyString ws.

(** [words.join(sep)] *)
Fixpoint join_with (sep : string) (ws : list string) : string :=
  match ws with
  | [] => EmptyString
  | [w] => w
  | w :: ws' => w +:+ sep +:+ join_with sep ws'
  end.

End Js.

(* ===================================================================== *)
(** * src/emit/validateEvent.ts and the emission guard                    *)
(* ===================================================================== *)

Module Gate.

(** A compiled schema: the errors it reports on an event, already
    rendered; the empty list means the event is valid. *)
Definition Validator : Type := Js.Val -> list string.

(** The schemas directory read at module load, an input of the module:
    its listing ([fs.readdirSync]) and the validator Ajv compiles from
    each file's contents. *)
Record Registry : Type := {
  schemaDir : list string;
  compile : string -> Validator
}.

(** [const schemaFiles = fs.readdirSync(schemaDir).filter(f => f.endsWith('.json'))] *)
Definition schemaFiles (R : Registry) : list string :=
  List.filter (Js.endsWith ".json") (schemaDir R).

(** [ajv.getSchema(name)] after [ajv.addSchema(schema, file)] for every
    file of [schemaFiles]: a schema is found under the key it was added
    under, the file name.  (Ajv also resolves a name against the [$id]s
    of the schemas; the schema documents are inputs and no [$id] is
    assumed.) *)
Definition getSchema (R : Registry) (name : string) : option Validator :=
  if bool_decide (name ∈ schemaFiles R) then Some (compile R name) else None.

(** [ajv.errorsText(validate.errors)] *)
Definition errorsText (errors : list string) : string :=
  Js.join_with ", " errors.

(** [.replace(/([A-Z])/g, '_$1')] *)
Fixpoint underscore_capitals (s : string) : string :=
  match s with
  | EmptyString => EmptyString
  | String c r =>
      if Js.is_upper c then String "_" (String c (underscore_capitals r))
      else String c (underscore_capitals r)
  end.

(** [.replace(/^_/, '')] *)
Definition strip_leading_underscore (s : string) : string :=
  match s with
  | String "_" r => r
  | _ => s
  end.

(** The first two passes of [toSnakeCase]. *)
Definition spread (s : string) : string :=
  Js.toLowerCase (underscore_capitals s).

Definition toSnakeCase (str : string) : string :=
  strip_leading_underscore (spread str).

(** [word.charAt(0).toUpperCase() + word.slice(1)] *)
Definition capitalize (word : string) : string :=
  match word with
  | EmptyString => EmptyString
  | String c r => String (Js.upper_char c) r
  end.

Definition toPascalCase (str : string) : string :=
  Js.join (List.map capitalize (Js.split "_" str)).

(** snake_case as the two conversions can invert it: non-empty words of
    lowercase letters and digits joined by single underscores, every
    word after the first beginning with a letter. *)
Definition word_char (c : ascii) : bool := (Js.is_lower c || Js.is_digit c)%bool.

Definition first_word (w : string) : bool :=
  match w with
  | EmptyString => false
  | String c r => (word_char c && Js.all_chars word_char r)%bool
  end.

Definition snake_word (w : string) : bool :=
  match w with
  | EmptyString => false
  | String c r => (Js.is_lower c && Js.all_chars word_char r)%bool
  end.

Definition is_snake_case (name : string) : bool :=
  match Js.split "_" name with
  | [] => false
  | w :: ws => (first_word w && forallb snake_word ws)%bool
  end.

(** What [getSupportedEventTypes] expects of a schema file other than
    the envelope: a snake_case name followed by [.v1.json]. *)
Definition schema_file_name (f : string) : Prop :=
  exists name, f = name +:+ ".v1.json" /\ is_snake_case name = true.

Definition not_envelope (f : string) : bool :=
  negb (String.eqb f "envelope.v1.json").

(** The schema file [validateEvent] looks an event type up under. *)
Definition schemaNameOf (event_type : string) : string :=
  toSnakeCase event_type +:+ ".v1.json".

Definition getSupportedEventTypes (R : Registry) : list string :=
  List.map (fun f => toPascalCase (Js.replace ".v1.json" "" f))
    (List.filter not_envelope (schemaFiles R)).

Definition validateEvent (R : Registry) (event : Js.Val) : Js.Completion unit :=
  if (negb (Js.truthy event) || negb (Js.is_object event))%bool then
    Js.Throw (Js.Error "Event must be an object")
  else if negb (Js.truthy (Js.get "event_type" event)) then
    Js.Throw (Js.Error "Event missing event_type field")
  else
    match Js.get "event_type" event with
    | Js.Str event_type =>
        let schemaName := schemaNameOf event_type in
        match getSchema R schemaName with
        | None =>
            Js.Throw (Js.Error ("No schema registered for " +:+ event_type
                                +:+ " (expected " +:+ schemaName +:+ ")"))
        | Some validate =>
            match validate event with
            | [] => Js.Return tt
            | errors =>
                Js.Throw (Js.Error ("Schema violation for " +:+ event_type
                                    +:+ ": " +:+ errorsText errors))
            end
        end
    | _ =>
        (* a truthy non-string has no [replace] method *)
        Js.Throw (Js.TypeError "str.replace is not a function")
    end.

(** [EventPublisher.publish]: resolves ([None]) or rejects with an error. *)
Definition EventPublisher : Type := Js.Val -> option Js.Err.

(** Module state of the emission guard: the configured publisher and,
    as a record of what left the process, every event handed to
    [publisher.publish], oldest first. *)
Record State : Type := {
  publisher : option EventPublisher;
  published : list Js.Val
}.

Definition initial : State := {| publisher := None; published := [] |}.

Definition setPublisher (impl : EventPublisher) (st : State) : State :=
  {| publisher := Some impl; published := published st |}.

Definition emitEvent (R : Registry) (event : Js.Val) (st : State)
  : Js.Completion unit * State :=
  match validateEvent R event with
  | Js.Throw e => (Js.Throw e, st)
  | Js.Return _ =>
      match publisher st with
      | None =>
          (Js.Throw (Js.Error
             "Event publisher not configured. Call setPublisher() first."), st)
      | Some p =>
          let st' := {| publisher := publisher st;
                        published := published st ++ [event] |} in
          match p event with
          | Some e => (Js.Throw e, st')
          | None => (Js.Return tt, st')
          end
      end
  end.

Fixpoint emitEvents (R : Registry) (events : list Js.Val) (st : State)
  : Js.Completion unit * State :=
  match events with
  | [] => (Js.Return tt, st)
  | event :: rest =>
      match emitEvent R event st with
      | (Js.Throw e, st') => (Js.Throw e, st')
      | (Js.Return _, st') => emitEvents R rest st'
      end
  end.

End Gate.

(* ===================================================================== *)
(** * Process-wide state shared by the store and the rejection emitter     *)
(* ===================================================================== *)

Module Runtime.

(** What the process cannot control: the value of the n-th call of
    [uuidv4()], the instant (milliseconds) of the n-th [new Date()],
    and the rendering [Date.prototype.toISOString]. *)
Record Env : Type := {
  uuidv4_at : nat -> string;
  date_at : nat -> Z;
  toISOString : Z -> string
}.

Record CommandRecord : Type := {
  command_id : string;
  command_type : string;
  processed_at : Z;
  result_event_id : option string
}.

Record World : Type := {
  processedCommands : gmap string CommandRecord;  (* the global store's Map *)
  console : list Js.Val;          (* events written by [console.log] *)
  uuids_drawn : nat;              (* calls of [uuidv4()] so far *)
  clock_reads : nat               (* calls of [new Date()] so far *)
}.

Definition initial : World :=
  {| processedCommands := ∅; console := []; uuids_drawn := 0%nat;
     clock_reads := 0%nat |}.

Definition uuidv4 (E : Env) (w : World) : string * World :=
  (uuidv4_at E (uuids_drawn w),
   {| processedCommands := processedCommands w; console := console w;
      uuids_drawn := S (uuids_drawn w); clock_reads := clock_reads w |}).

Definition newDate (E : Env) (w : World) : Z * World :=
  (date_at E (clock_reads w),
   {| processedCommands := processedCommands w; console := console w;
      uuids_drawn := uuids_drawn w; clock_reads := S (clock_reads w) |}).

Definition console_log (event : Js.Val) (w : World) : World :=
  {| processedCommands := processedCommands w;
     console := console w ++ [event];
     uuids_drawn := uuids_drawn w; clock_reads := clock_reads w |}.

Definition set_processedCommands (m : gmap string CommandRecord) (w : World)
  : World :=
  {| processedCommands := m; console := console w;
     uuids_drawn := uuids_drawn w; clock_reads := clock_reads w |}.

End Runtime.

(* ===================================================================== *)
(** * src/command/CommandIdempotencyStore.ts                              *)
(* ===================================================================== *)

Module Store.
Import Runtime.

Definition isProcessed (command_id : string) (w : World) : bool :=
  bool_decide (is_Some (processedCommands w !! command_id)).

Definition getRecord (command_id : string) (w : World) : option CommandRecord :=
  processedCommands w !! command_id.

Definition markProcessed (E : Env) (command_id command_type : string)
    (result_event_id : option string) (w : World)
  : Js.Completion unit * World :=
  if isProcessed command_id w then
    (Js.Throw (Js.Error ("Command " +:+ command_id +:+ " already processed")), w)
  else
    let '(now, w1) := newDate E w in
    (Js.Return tt,
     set_processedCommands
       (<[command_id := {| Runtime.command_id := command_id;
                           Runtime.command_type := command_type;
                           processed_at := now;
                           Runtime.result_event_id := result_event_id |}]>
          (processedCommands w1)) w1).

Definition count (w : World) : nat := size (processedCommands w).

Definition clear (w : World) : World := set_processedCommands ∅ w.

End Store.

(* ===================================================================== *)
(** * src/command/CommandRejectedEmitter.ts                               *)
(* ===================================================================== *)

Module Emitter.
Import Runtime.

Inductive RejectionReason : Type :=
| DUPLICATE_COMMAND
| INVALID_SCHEMA
| BUSINESS_RULE_VIOLATION
| INSUFFICIENT_FUNDS
| INVALID_STATE_TRANSITION
| AUTHORIZATION_FAILED
| RATE_LIMIT_EXCEEDED.

(** The string value of each enum member. *)
Definition reason_string (r : RejectionReason) : string :=
  match r with
  | DUPLICATE_COMMAND => "DUPLICATE_COMMAND"
  | INVALID_SCHEMA => "INVALID_SCHEMA"
  | BUSINESS_RULE_VIOLATION => "BUSINESS_RULE_VIOLATION"
  | INSUFFICIENT_FUNDS => "INSUFFICIENT_FUNDS"
  | INVALID_STATE_TRANSITION => "INVALID_STATE_TRANSITION"
  | AUTHORIZATION_FAILED => "AUTHORIZATION_FAILED"
  | RATE_LIMIT_EXCEEDED => "RATE_LIMIT_EXCEEDED"
  end.

Record CommandRejectedPayload : Type := {
  command_id : string;
  command_type : string;
  reason_code : RejectionReason;
  reason_message : string;
  rejected_at : string;
  correlation_id : option string;
  metadata : option (list (string * Js.Val))
}.

(** [payload.correlation_id || event_id]: an absent or empty
    correlation id falls back to the event id. *)
Definition correlation_or (correlation_id : option string) (event_id : string)
  : string :=
  match correlation_id with
  | Some c => if String.eqb c "" then event_id else c
  | None => event_id
  end.

(** The object literal [event] of [emit]. *)
Definition build_event (payload : CommandRejectedPayload)
    (event_id occurred_at : string) : Js.Val :=
  Js.Obj [
    ("event_id", Js.Str event_id);
    ("event_type", Js.Str "command_rejected.v1");
    ("occurred_at", Js.Str occurred_at);
    ("schema_version", Js.Str "v1");
    ("correlation_id", Js.Str (correlation_or (correlation_id payload) event_id));
    ("payload", Js.Obj [
       ("command_id", Js.Str (command_id payload));
       ("command_type", Js.Str (command_type payload));
       ("reason_code", Js.Str (reason_string (reason_code payload)));
       ("reason_message", Js.Str (reason_message payload));
       ("rejected_at", Js.Str (rejected_at payload));
       ("metadata", Js.Obj (default [] (metadata payload)))
     ])
  ].

Definition emit (E : Env) (R : Gate.Registry) (payload : CommandRejectedPayload)
    (w : World) : Js.Completion string * World :=
  let '(event_id, w1) := uuidv4 E w in
  let '(now, w2) := newDate E w1 in
  let occurred_at := toISOString E now in
  let event := build_event payload event_id occurred_at in
  match Gate.validateEvent R event with
  | Js.Throw e => (Js.Throw e, w2)
  | Js.Return _ => (Js.Return event_id, console_log event w2)
  end.

Definition emitDuplicateCommand (E : Env) (R : Gate.Registry)
    (command_id command_type : string) (correlation_id : option string)
    (w : World) : Js.Completion string * World :=
  let '(now, w1) := newDate E w in
  emit E R
    {| command_id := command_id;
       command_type := command_type;
       reason_code := DUPLICATE_COMMAND;
       reason_message := "Command " +:+ command_id +:+ " has already been processed";
       rejected_at := toISOString E now;
       correlation_id := correlation_id;
       metadata := None |} w1.

Definition emitInvalidSchema (E : Env) (R : Gate.Registry)
    (command_id command_type validation_error : string)
    (correlation_id : option string)
    (w : World) : Js.Completion string * World :=
  let '(now, w1) := newDate E w in
  emit E R
    {| command_id := command_id;
       command_type := command_type;
       reason_code := INVALID_SCHEMA;
       reason_message := "Command validation failed: " +:+ validation_error;
       rejected_at := toISOString E now;
       correlation_id := correlation_id;
       metadata := Some [("validation_error", Js.Str validation_error)] |} w1.

Definition emitBusinessRuleViolation (E : Env) (R : Gate.Registry)
    (command_id command_type rule_violation : string)
    (correlation_id : option string)
    (w : World) : Js.Completion string * World :=
  let '(now, w1) := newDate E w in
  emit E R
    {| command_id := command_id;
       command_type := command_type;
       reason_code := BUSINESS_RULE_VIOLATION;
       reason_message := "Business rule violation: " +:+ rule_violation;
       rejected_at := toISOString E now;
       correlation_id := correlation_id;
       metadata := Some [("rule_violation", Js.Str rule_violation)] |} w1.

Definition emitInsufficientFunds (E : Env) (R : Gate.Registry)
    (command_id command_type : string)
    (required_amount available_amount : Js.Number)
    (correlation_id : option string)
    (w : World) : Js.Completion string * World :=
  let '(now, w1) := newDate E w in
  emit E R
    {| command_id := command_id;
       command_type := command_type;
       reason_code := INSUFFICIENT_FUNDS;
       reason_message := "Insufficient funds: required "
                         +:+ Js.text required_amount
                         +:+ ", available " +:+ Js.text available_amount;
       rejected_at := toISOString E now;
       correlation_id := correlation_id;
       metadata := Some [("required_amount", Js.Num required_amount);
                         ("available_amount", Js.Num available_amount)] |} w1.

Definition emitInvalidStateTransition (E : Env) (R : Gate.Registry)
    (command_id command_type current_state attempted_transition : string)
    (correlation_id : option string)
    (w : World) : Js.Completion string * World :=
  let '(now, w1) := newDate E w in
  emit E R
    {| command_id := command_id;
       command_type := command_type;
       reason_code := INVALID_STATE_TRANSITION;
       reason_message := "Invalid state transition: " +:+ current_state
                         +:+ " -> " +:+ attempted_transition;
       rejected_at := toISOString E now;
       correlation_id := correlation_id;
       metadata := Some [("current_state", Js.Str current_state);
                         ("attempted_transition", Js.Str attempted_transition)] |} w1.

(** The five helpers under one name, to speak of all of them. *)
Inductive Helper : Type :=
| DuplicateCommand
| InvalidSchema (validation_error : string)
| BusinessRuleViolation (rule_violation : string)
| InsufficientFunds (required_amount available_amount : Js.Number)
| InvalidStateTransition (current_state attempted_transition : string).

Definition call (E : Env) (R : Gate.Registry) (h : Helper)
    (command_id command_type : string) (correlation_id : option string)
    (w : World) : Js.Completion string * World :=
  match h with
  | DuplicateCommand =>
      emitDuplicateCommand E R command_id command_type correlation_id w
  | InvalidSchema validation_error =>
      emitInvalidSchema E R command_id command_type validation_error
        correlation_id w
  | BusinessRuleViolation rule_violation =>
      emitBusinessRuleViolation E R command_id command_type rule_violation
        correlation_id w
  | InsufficientFunds required_amount available_amount =>
      emitInsufficientFunds E R command_id command_type required_amount
        available_amount correlation_id w
  | InvalidStateTransition current_state attempted_transition =>
      emitInvalidStateTransition E R command_id command_type current_state
        attempted_transition correlation_id w
  end.

Definition reason_of (h : Helper) : RejectionReason :=
  match h with
  | DuplicateCommand => DUPLICATE_COMMAND
  | InvalidSchema _ => INVALID_SCHEMA
  | BusinessRuleViolation _ => BUSINESS_RULE_VIOLATION
  | InsufficientFunds _ _ => INSUFFICIENT_FUNDS
  | InvalidStateTransition _ _ => INVALID_STATE_TRANSITION
  end.

(** Reading a rejection event. *)
Definition event_reason_code (event : Js.Val) : Js.Val :=
  Js.get "reason_code" (Js.get "payload" event).

Definition event_metadata (k : string) (event : Js.Val) : Js.Val :=
  Js.get k (Js.get "metadata" (Js.get "payload" event)).

Definition is_rejection_event (event : Js.Val) : Prop :=
  Js.get "event_type" event = Js.Str "command_rejected.v1".

(** The registry lets every rejection event through [validateEvent]. *)
Definition gate_accepts_rejections (R : Gate.Registry) : Prop :=
  forall event, is_rejection_event event ->
                Gate.validateEvent R event = Js.Return tt.

(** What a call of the emitter amounts to for the event [event] it
    built: validated and written to the console under its id, or
    refused by [validateEvent] with nothing written. *)
Definition outcome_for (R : Gate.Registry) (event : Js.Val) (w : World)
    (out : Js.Completion string * World) : Prop :=
  is_rejection_event event /\
  processedCommands (snd out) = processedCommands w /\
  match Gate.validateEvent R event with
  | Js.Return _ =>
      exists id, Js.get "event_id" event = Js.Str id /\
                 fst out = Js.Return id /\
                 console (snd out) = console w ++ [event]
  | Js.Throw e => fst out = Js.Throw e /\ console (snd out) = console w
  end.

End Emitter.

(* ===================================================================== *)
(** * src/command/CommandHandler.ts                                       *)
(* ===================================================================== *)

Module Handler.
Import Runtime.

Record Command : Type := {
  command_id : string;
  command_type : string;
  correlation_id : option string;
  fields : list (string * Js.Val)      (* [[key: string]: any] *)
}.

Record CommandResult : Type := {
  success : bool;
  event_id : option string;
  rejection_event_id : option string;
  reason : option string
}.

(** The two abstract methods a concrete handler supplies.  [X] is the
    state of the domain collaborator (the subclass's own fields and the
    systems it drives); the idempotency store and the rejection emitter
    are owned by the base class and written only by it. *)
Record Impl (X : Type) : Type := {
  validate : Command -> X -> Js.Completion unit * X;
  execute : Command -> X -> Js.Completion string * X
}.
Arguments validate {X} _ _ _.
Arguments execute {X} _ _ _.

(** Instrumentation: the calls [handle] makes, in order. *)
Inductive Call : Type :=
| CallValidate (command : Command)
| CallExecute (command : Command)
| CallMarkProcessed (command_id : string).

Record State (X : Type) : Type := {
  world : World;
  domain : X;
  calls : list Call
}.
Arguments world {X} _.
Arguments domain {X} _.
Arguments calls {X} _.

Section WithImpl.
Context {X : Type}.
Variable E : Env.
Variable R : Gate.Registry.
Variable H : Impl X.

Definition set_world (w : World) (s : State X) : State X :=
  {| world := w; domain := domain s; calls := calls s |}.

Definition set_domain (x : X) (s : State X) : State X :=
  {| world := world s; domain := x; calls := calls s |}.

Definition log_call (c : Call) (s : State X) : State X :=
  {| world := world s; domain := domain s; calls := calls s ++ [c] |}.

(** The helper [handleRejection] dispatches to, by substring of the
    error message, in source order. *)
Definition emitFor (command : Command) (error : Js.Err) (w : World)
  : Js.Completion string * World :=
  let message := Js.message error in
  if Js.includes "validation" message then
    Emitter.emitInvalidSchema E R (command_id command) (command_type command)
      message (correlation_id command) w
  else if Js.includes "insufficient funds" message then
    Emitter.emitInsufficientFunds E R (command_id command)
      (command_type command) Js.zero Js.zero (correlation_id command) w
  else if Js.includes "state transition" message then
    Emitter.emitInvalidStateTransition E R (command_id command)
      (command_type command) "unknown" "unknown" (correlation_id command) w
  else
    Emitter.emitBusinessRuleViolation E R (command_id command)
      (command_type command) message (correlation_id command) w.

(** [error] is whatever the [catch] of [handle] caught, cast to [Error]:
    on a primitive the first [error.message.includes] throws. *)
Definition handleRejection (command : Command) (error : Js.Err) (s : State X)
  : Js.Completion CommandResult * State X :=
  match error with
  | Js.Thrown p => (Js.Throw (Js.message_includes_fails p), s)
  | _ =>
      match emitFor command error (world s) with
      | (Js.Throw e, w) => (Js.Throw e, set_world w s)
      | (Js.Return rejection_event_id, w) =>
          (Js.Return {| success := false;
                        event_id := None;
                        rejection_event_id := Some rejection_event_id;
                        reason := Some (Js.message error) |},
           set_world w s)
      end
  end.

(** Step 1 of [handle] when the command is a duplicate. *)
Definition rejectDuplicate (command : Command) (s : State X)
  : Js.Completion CommandResult * State X :=
  match Emitter.emitDuplicateCommand E R (command_id command)
          (command_type command) (correlation_id command) (world s) with
  | (Js.Throw e, w) => (Js.Throw e, set_world w s)
  | (Js.Return rejection_event_id, w) =>
      (Js.Return {| success := false;
                    event_id := None;
                    rejection_event_id := Some rejection_event_id;
                    reason := Some "Duplicate command" |},
       set_world w s)
  end.

(** Step 4 and the [return] after it, with the [catch] around them. *)
Definition commit (command : Command) (event_id : string) (s : State X)
  : Js.Completion CommandResult * State X :=
  let s3 := log_call (CallMarkProcessed (command_id command)) s in
  match Store.markProcessed E (command_id command) (command_type command)
          (Some event_id) (world s3) with
  | (Js.Throw e, w) => handleRejection command e (set_world w s3)
  | (Js.Return _, w) =>
      (Js.Return {| success := true;
                    event_id := Some event_id;
                    rejection_event_id := None;
                    reason := None |},
       set_world w s3)
  end.

Definition handle (command : Command) (s : State X)
  : Js.Completion CommandResult * State X :=
  if Store.isProcessed (command_id command) (world s) then
    rejectDuplicate command s
  else
    let s1 := log_call (CallValidate command) s in
    match validate H command (domain s1) with
    | (Js.Throw e, x1) => handleRejection command e (set_domain x1 s1)
    | (Js.Return _, x1) =>
        let s2 := log_call (CallExecute command) (set_domain x1 s1) in
        match execute H command (domain s2) with
        | (Js.Throw e, x2) => handleRejection command e (set_domain x2 s2)
        | (Js.Return event_id, x2) => commit command event_id (set_domain x2 s2)
        end
    end.

(** ** The same function cut at [await this.execute(command)]

    [handle] is an [async] function; it runs without interruption up
    to that [await], where other invocations may run before it is
    resumed with the outcome of [execute].  The other [await]s wait
    for the emitter, whose methods contain no [await] and have run to
    completion when they return; nothing is done after them but
    building the result. *)
Inductive Task : Type :=
| Settled (r : Js.Completion CommandResult)
| Awaiting (command : Command) (outcome : Js.Completion string).

Definition handle_start (command : Command) (s : State X) : Task * State X :=
  if Store.isProcessed (command_id command) (world s) then
    let '(r, s') := rejectDuplicate command s in (Settled r, s')
  else
    let s1 := log_call (CallValidate command) s in
    match validate H command (domain s1) with
    | (Js.Throw e, x1) =>
        let '(r, s') := handleRejection command e (set_domain x1 s1) in
        (Settled r, s')
    | (Js.Return _, x1) =>
        let s2 := log_call (CallExecute command) (set_domain x1 s1) in
        let '(outcome, x2) := execute H command (domain s2) in
        (Awaiting command outcome, set_domain x2 s2)
    end.

Definition handle_resume (t : Task) (s : State X)
  : Js.Completion CommandResult * State X :=
  match t with
  | Settled r => (r, s)
  | Awaiting command (Js.Throw e) => handleRejection command e s
  | Awaiting command (Js.Return event_id) => commit command event_id s
  end.

(** Two invocations in flight together, as in
    [Promise.all([h.handle(c1), h.handle(c2)])]: each runs to its
    first suspension, then they are resumed in order. *)
Definition handle_both (c1 c2 : Command) (s : State X)
  : Js.Completion CommandResult * Js.Completion CommandResult * State X :=
  let '(t1, s1) := handle_start c1 s in
  let '(t2, s2) := handle_start c2 s1 in
  let '(r1, s3) := handle_resume t1 s2 in
  let '(r2, s4) := handle_resume t2 s3 in
  (r1, r2, s4).

(** ** Vocabulary of the properties *)

(** [validate] or [execute] raised [e] on [command] from domain
    state [x]. *)
Definition raised (command : Command) (x : X) (e : Js.Err) : Prop :=
  (exists x1, validate H command x = (Js.Throw e, x1)) \/
  (exists u x1 x2, validate H command x = (Js.Return u, x1) /\
                   execute H command x1 = (Js.Throw e, x2)).

(** The handler answered with a rejection built around [event]: a
    failure result carrying the event's id and [why] once the gate
    has let the event through, the gate's own error otherwise. *)
Definition rejected_with (event : Js.Val) (why : string) (s : State X)
    (out : Js.Completion CommandResult * State X) : Prop :=
  Emitter.is_rejection_event event /\
  processedCommands (world (snd out)) = processedCommands (world s) /\
  match Gate.validateEvent R event with
  | Js.Return _ =>
      exists id, Js.get "event_id" event = Js.Str id /\
        fst out = Js.Return {| success := false;
                               event_id := None;
                               rejection_event_id := Some id;
                               reason := Some why |} /\
        console (world (snd out)) = console (world s) ++ [event]
  | Js.Throw e =>
      fst out = Js.Throw e /\
      console (world (snd out)) = console (world s)
  end.

(** The four ways through [handle], by what the duplicate check,
    [validate] and [execute] answer. *)
Inductive path (command : Command) (s : State X)
  : Js.Completion CommandResult * State X -> Prop :=
| Duplicate :
    Store.isProcessed (command_id command) (world s) = true ->
    path command s (rejectDuplicate command s)
| Invalid e x1 :
    Store.isProcessed (command_id command) (world s) = false ->
    validate H command (domain s) = (Js.Throw e, x1) ->
    path command s
      (handleRejection command e
         (set_domain x1 (log_call (CallValidate command) s)))
| Failed u e x1 x2 :
    Store.isProcessed (command_id command) (world s) = false ->
    validate H command (domain s) = (Js.Return u, x1) ->
    execute H command x1 = (Js.Throw e, x2) ->
    path command s
      (handleRejection command e
         (set_domain x2 (log_call (CallExecute command)
            (set_domain x1 (log_call (CallValidate command) s)))))
| Executed u event_id x1 x2 :
    Store.isProcessed (command_id command) (world s) = false ->
    validate H command (domain s) = (Js.Return u, x1) ->
    execute H command x1 = (Js.Return event_id, x2) ->
    path command s
      (commit command event_id
         (set_domain x2 (log_call (CallExecute command)
            (set_domain x1 (log_call (CallValidate command) s))))).

End WithImpl.

(** The two shapes of a result. *)
Definition success_shape (r : CommandResult) : Prop :=
  success r = true /\ is_Some (event_id r) /\
  rejection_event_id r = None /\ reason r = None.

Definition failure_shape (r : CommandResult) : Prop :=
  success r = false /\ is_Some (rejection_event_id r) /\
  is_Some (reason r) /\ event_id r = None.

(** The classification as the specification words it: the first of the
    three substrings found in the message decides, and anything else is
    a business rule violation. *)
Definition spec_reason (message : string) : Emitter.RejectionReason :=
  if Js.includes "validation" message then Emitter.INVALID_SCHEMA
  else if Js.includes "insufficient funds" message then Emitter.INSUFFICIENT_FUNDS
  else if Js.includes "state transition" message then
    Emitter.INVALID_STATE_TRANSITION
  else Emitter.BUSINESS_RULE_VIOLATION.

Definition executions (command_id' : string) (cs : list Call) : nat :=
  length (List.filter
            (fun c => match c with
                      | CallExecute c' => String.eqb (command_id c') command_id'
                      | _ => false
                      end) cs).

(** The metadata the specification words for the two classifications
    that carry placeholders. *)
Definition spec_metadata (message : string) (event : Js.Val) : Prop :=
  match spec_reason message with
  | Emitter.INSUFFICIENT_FUNDS =>
      Emitter.event_metadata "required_amount" event = Js.Num Js.zero /\
      Emitter.event_metadata "available_amount" event = Js.Num Js.zero
  | Emitter.INVALID_STATE_TRANSITION =>
      Emitter.event_metadata "current_state" event = Js.Str "unknown" /\
      Emitter.event_metadata "attempted_transition" event = Js.Str "unknown"
  | _ => True
  end.

End Handler.

(* ===================================================================== *)
(** * Concrete instances                                                   *)
(* ===================================================================== *)

Module Fixtures.
Import Runtime.

(** [TestCommandHandler] of the command idempotency tests. *)
Definition TestCommandHandler : Handler.Impl unit := {|
  Handler.validate command x :=
    if negb (Js.truthy (Js.Str (Handler.command_id command))) then
      (Js.Throw (Js.Error "validation: Missing command_id"), x)
    else (Js.Return tt, x);
  Handler.execute command x :=
    if String.eqb (Handler.command_id command) "cmd-fail" then
      (Js.Throw (Js.Error "Business rule violation: Test failure"), x)
    else (Js.Return "evt-success", x)
|}.


Definition command (id : string) : Handler.Command :=
  {| Handler.command_id := id; Handler.command_type := "TestCommand";
     Handler.correlation_id := None; Handler.fields := [] |}.

Definition env : Env := {|
  uuidv4_at n := "uuid-" +:+ pretty n;
  date_at n := 1734429600000 + Z.of_nat n;
  toISOString z := "ms:" +:+ pretty z
|}.

Definition start : Handler.State unit :=
  {| Handler.world := Runtime.initial; Handler.domain := tt;
     Handler.calls := [] |}.

Definition accept_all : Gate.Validator := fun _ => [].

(** The schema files the sources and their documentation name. *)
Definition documented : Gate.Registry := {|
  Gate.schemaDir := ["envelope.v1.json"; "payment_initiated.v1.json";
                     "payment_settled.v1.json"; "command_rejected.v1.json";
                     "README.md"];
  Gate.compile := fun _ => accept_all
|}.

(** A directory that also holds a schema under the name [validateEvent]
    derives from the event type the rejection emitter stamps. *)
Definition accepting : Gate.Registry := {|
  Gate.schemaDir := ["envelope.v1.json"; "payment_settled.v1.json";
                     "command_rejected.v1.v1.json"];
  Gate.compile := fun _ => accept_all
|}.

(** A [payment_settled] schema that requires [payload.ledger_posting]. *)
Definition settled_schema : Gate.Validator := fun event =>
  match Js.get "ledger_posting" (Js.get "payload" event) with
  | Js.Obj _ => []
  | _ => ["data/payload must have required property 'ledger_posting'"]
  end.

Definition strict : Gate.Registry := {|
  Gate.schemaDir := ["envelope.v1.json"; "payment_settled.v1.json"];
  Gate.compile := fun f =>
    if String.eqb f "payment_settled.v1.json" then settled_schema else accept_all
|}.


Definition settled_event (payload : list (string * Js.Val)) : Js.Val :=
  Js.Obj [("event_id", Js.Str "550e8400-e29b-41d4-a716-446655440000");
          ("event_type", Js.Str "PaymentSettled");
          ("payload", Js.Obj payload)].

Definition unsupported_event : Js.Val :=
  Js.Obj [("event_id", Js.Str "550e8400-e29b-41d4-a716-446655440000");
          ("event_type", Js.Str "UnsupportedEventType");
          ("payload", Js.Obj [])].

Definition always_publishes : Gate.EventPublisher := fun _ => None.

(** A directory with a schema whose second word starts with a digit. *)
Definition with_digits : Gate.Registry := {|
  Gate.schemaDir := ["envelope.v1.json"; "iso_20022_received.v1.json"];
  Gate.compile := fun _ => accept_all
|}.

End Fixtures.

(* ===================================================================== *)
(** * Names, call sequences and submissions                               *)
(* ===================================================================== *)

Module Names.

(** An event type as [toSnakeCase] expects it: ASCII characters only, a
    capital letter first and no underscore anywhere. *)
Definition is_pascal_case (t : string) : bool :=
  match t with
  | EmptyString => false
  | String c r =>
      (Js.is_upper c &&
       Js.all_chars (fun x => Js.is_ascii x && negb (Ascii.eqb x "_")) r)%bool
  end.

Definition no_capital (s : string) : bool :=
  Js.all_chars (fun x => negb (Js.is_upper x)) s.

Definition no_underscore (s : string) : bool :=
  Js.all_chars (fun x => negb (Ascii.eqb x "_")) s.

End Names.

Module Usage.
Import Runtime.

(** A call made on the store by one of its users; an error thrown by
    [markProcessed] is the caller's to catch, the store goes on. *)
Inductive StoreCall : Type :=
| Mark (command_id command_type : string) (result_event_id : option string)
| Clear.

Definition run_call (E : Env) (c : StoreCall) (w : World) : World :=
  match c with
  | Mark command_id command_type result_event_id =>
      snd (Store.markProcessed E command_id command_type result_event_id w)
  | Clear => Store.clear w
  end.

Definition run_calls (E : Env) (cs : list StoreCall) (w : World) : World :=
  fold_left (fun w c => run_call E c w) cs w.

Definition is_mark (c : StoreCall) : bool :=
  match c with Mark _ _ _ => true | Clear => false end.

Definition marked_ids (cs : list StoreCall) : list string :=
  flat_map (fun c => match c with Mark id _ _ => [id] | Clear => [] end) cs.

(** Every record sits under its own [command_id]. *)
Definition well_keyed (w : World) : Prop :=
  forall k r, Store.getRecord k w = Some r -> command_id r = k.

(** Commands handled one after the other, each by a handler of its own
    (all share the one store and emitter), each awaited before the next
    is submitted. *)
Fixpoint submit_all {X : Type} (E : Env) (R : Gate.Registry)
    (jobs : list (Handler.Impl X * Handler.Command)) (s : Handler.State X)
  : Handler.State X :=
  match jobs with
  | [] => s
  | (H, c) :: rest => submit_all E R rest (snd (Handler.handle E R H c s))
  end.

End Usage.

(* ===================================================================== *)
(** * Strings                                                             *)
(* ===================================================================== *)

Section StringFacts.

Lemma append_cons (c : ascii) (s t : string) :
  String c s +:+ t = String c (s +:+ t).
Proof. reflexivity. Qed.

Lemma append_nil_l (t : string) : "" +:+ t = t.
Proof. reflexivity. Qed.

Lemma append_nil_r (s : string) : s +:+ "" = s.
Proof.
  induction s as [|c s IH]; [reflexivity|]. now rewrite append_cons, IH.
Qed.

Lemma append_assoc (a b c : string) : (a +:+ b) +:+ c = a +:+ (b +:+ c).
Proof.
  induction a as [|x a IH]; [reflexivity|]. now rewrite !append_cons, IH.
Qed.

Lemma prefix_append (p s : string) : String.prefix p (p +:+ s) = true.
Proof.
  induction p as [|c p IH].
  - now destruct s.
  - rewrite append_cons. simpl.
    destruct (ascii_dec c c) as [_|ne]; [exact IH | now elim ne].
Qed.

Lemma includes_unfold (n s : string) :
  Js.includes n s =
  if String.prefix n s then true
  else match s with
       | EmptyString => false
       | String _ r => Js.includes n r
       end.
Proof. now destruct s. Qed.

Lemma includes_prefix (p s : string) : Js.includes p (p +:+ s) = true.
Proof. now rewrite includes_unfold, prefix_append. Qed.

Lemma includes_append_r (n a s : string) :
  Js.includes n s = true -> Js.includes n (a +:+ s) = true.
Proof.
  intros Hs. induction a as [|c a IH]; [exact Hs|].
  rewrite append_cons, includes_unfold, IH.
  now destruct (String.prefix n _).
Qed.

Lemma prefix_split (n t : string) :
  String.prefix n t = true -> t = n +:+ Js.drop (String.length n) t.
Proof.
  revert t. induction n as [|x n IH]; intros t Hp; [reflexivity|].
  destruct t as [|y t]; simpl in Hp; [discriminate|].
  destruct (ascii_dec x y) as [->|]; [|discriminate].
  rewrite append_cons. simpl. f_equal. now apply IH.
Qed.

Lemma replace_unfold (pat rep s : string) :
  Js.replace pat rep s =
  if String.prefix pat s then rep +:+ Js.drop (String.length pat) s
  else match s with
       | EmptyString => EmptyString
       | String c r => String c (Js.replace pat rep r)
       end.
Proof. now destruct s. Qed.

Lemma prefix_cons_ne (a b : ascii) (p s : string) :
  a <> b -> String.prefix (String a p) (String b s) = false.
Proof.
  intros Hne. cbn [String.prefix]. now destruct (ascii_dec a b).
Qed.

Example split_keeps_empty_words :
  Js.split "_" "payment__settled_" = ["payment"; ""; "settled"; ""].
Proof. reflexivity. Qed.

Example replace_first_only :
  Js.replace ".v1.json" "" "a.v1.json.v1.json" = "a.v1.json".
Proof. reflexivity. Qed.

Example includes_is_case_sensitive :
  Js.includes "validation" "Command validation failed" = true /\
  Js.includes "validation" "Validation failed" = false.
Proof. split; reflexivity. Qed.

(** [includes] is substring containment. *)
Lemma includes_spec (n s : string) :
  Js.includes n s = true <-> exists a b, s = a +:+ n +:+ b.
Proof.
  split.
  - induction s as [|c s IH]; rewrite includes_unfold.
    + destruct (String.prefix n "") eqn:Hp; [|discriminate].
      intros _. exists "", (Js.drop (String.length n) "").
      now apply prefix_split.
    + destruct (String.prefix n (String c s)) eqn:Hp.
      * intros _. exists "", (Js.drop (String.length n) (String c s)).
        now apply prefix_split.
      * intros Hi. destruct (IH Hi) as (a & b & ->).
        now exists (String c a), b.
  - intros (a & b & ->). apply includes_append_r, includes_prefix.
Qed.

End StringFacts.

(* ===================================================================== *)
(** * The name transform                                                  *)
(* ===================================================================== *)

Section NameTransform.
Import Gate.

Example settled_names :
  toSnakeCase "PaymentSettled" = "payment_settled" /\
  toPascalCase "payment_settled" = "PaymentSettled" /\
  schemaNameOf "PaymentSettled" = "payment_settled.v1.json".
Proof. repeat split. Qed.

(** The event type the rejection emitter stamps is already lower case and
    carries its version, which [validateEvent] appends once more. *)
Example rejected_name :
  schemaNameOf "command_rejected.v1" = "command_rejected.v1.v1.json".
Proof. reflexivity. Qed.

Lemma lower_upper (c : ascii) :
  Js.is_lower c = true ->
  Js.is_upper (Js.upper_char c) = true /\ Js.lower_char (Js.upper_char c) = c.
Proof. destruct c as [[] [] [] [] [] [] [] []]; vm_compute; intuition congruence. Qed.

Lemma word_char_not_upper (c : ascii) :
  word_char c = true -> Js.is_upper c = false.
Proof. destruct c as [[] [] [] [] [] [] [] []]; vm_compute; congruence. Qed.

Lemma lower_not_upper (c : ascii) : Js.is_lower c = true -> Js.is_upper c = false.
Proof. destruct c as [[] [] [] [] [] [] [] []]; vm_compute; congruence. Qed.

Lemma word_char_not_dot (c : ascii) :
  (word_char c || Ascii.eqb c "_")%bool = true -> c <> "."%char.
Proof. destruct c as [[] [] [] [] [] [] [] []]; vm_compute; congruence. Qed.

Lemma spread_append (a b : string) : spread (a +:+ b) = spread a +:+ spread b.
Proof.
  unfold spread. induction a as [|c a IH]; [reflexivity|].
  rewrite append_cons. simpl. destruct (Js.is_upper c); simpl;
    rewrite IH; reflexivity.
Qed.

Lemma spread_word_chars (r : string) :
  Js.all_chars word_char r = true -> spread r = r.
Proof.
  unfold spread. induction r as [|c r IH]; [reflexivity|]. simpl.
  intros [Hc Hr]%andb_true_iff.
  pose proof (word_char_not_upper c Hc) as Hu. rewrite Hu. simpl.
  unfold Js.lower_char. rewrite Hu. now rewrite IH.
Qed.

Lemma spread_capitalize (w : string) :
  snake_word w = true -> spread (capitalize w) = String "_" w.
Proof.
  destruct w as [|c r]; [discriminate|]. simpl.
  intros [Hc Hr]%andb_true_iff.
  destruct (lower_upper c Hc) as [Hu Hl].
  unfold spread. simpl. rewrite Hu. simpl. rewrite Hl.
  f_equal. f_equal. now apply spread_word_chars.
Qed.

Lemma spread_pascal (ws : list string) :
  forallb snake_word ws = true ->
  spread (Js.join (List.map capitalize ws)) =
  Js.join (List.map (String "_") ws).
Proof.
  induction ws as [|w ws IH]; [reflexivity|]. simpl.
  intros [Hw Hws]%andb_true_iff.
  fold (capitalize w +:+ Js.join (List.map capitalize ws)).
  rewrite spread_append, spread_capitalize, IH by assumption. reflexivity.
Qed.

Lemma join_cons (w : string) (ws : list string) :
  Js.join (w :: ws) = w +:+ Js.join ws.
Proof. reflexivity. Qed.

Lemma join_with_cons (sep w v : string) (ws : list string) :
  Js.join_with sep (w :: v :: ws) = w +:+ sep +:+ Js.join_with sep (v :: ws).
Proof. reflexivity. Qed.

Lemma join_underscored (w : string) (ws : list string) :
  w +:+ Js.join (List.map (String "_") ws) = Js.join_with "_" (w :: ws).
Proof.
  revert w. induction ws as [|v ws IH]; intros w.
  - apply append_nil_r.
  - rewrite join_with_cons, <- IH. reflexivity.
Qed.

Lemma strip_join (ws : list string) :
  ws <> [] ->
  strip_leading_underscore (Js.join (List.map (String "_") ws)) =
  Js.join_with "_" ws.
Proof.
  destruct ws as [|w ws]; [congruence|]. intros _.
  rewrite <- join_underscored. reflexivity.
Qed.

Lemma split_nonempty (sep : ascii) (s : string) : Js.split sep s <> [].
Proof.
  destruct s as [|c s]; simpl; [congruence|].
  destruct (Ascii.eqb c sep); [congruence|].
  destruct (Js.split sep s); congruence.
Qed.

(** [s.split('_').join('_')] is [s]. *)
Lemma join_split (s : string) : Js.join_with "_" (Js.split "_" s) = s.
Proof.
  induction s as [|c s IH]; [reflexivity|]. simpl.
  destruct (Ascii.eqb c "_") eqn:Hc.
  - apply Ascii.eqb_eq in Hc as ->.
    pose proof (split_nonempty "_" s) as Hne.
    destruct (Js.split "_" s) as [|w ws]; [congruence|].
    rewrite join_with_cons, IH. reflexivity.
  - pose proof (split_nonempty "_" s) as Hne.
    destruct (Js.split "_" s) as [|w ws]; [congruence|].
    rewrite <- IH. destruct ws; reflexivity.
Qed.

Lemma word_char_plain (c : ascii) :
  word_char c = true -> Js.is_lower c = false ->
  Js.upper_char c = c /\ c <> "_"%char.
Proof. destruct c as [[] [] [] [] [] [] [] []]; vm_compute; intuition congruence. Qed.

(** The first word needs no underscore in front of it, so it may also
    start with a digit. *)
Lemma spread_first_word (w rest : string) :
  first_word w = true ->
  strip_leading_underscore (spread (capitalize w) +:+ rest) = w +:+ rest.
Proof.
  destruct w as [|c r]; [discriminate|]. cbn [first_word].
  intros [Hc Hr]%andb_true_iff.
  destruct (Js.is_lower c) eqn:Hl.
  - rewrite spread_capitalize; [reflexivity|]. cbn [snake_word].
    now rewrite Hl, Hr.
  - destruct (word_char_plain c Hc Hl) as [Hu Hne].
    cbn [capitalize]. rewrite Hu.
    rewrite (spread_word_chars (String c r)) by (cbn [Js.all_chars]; now rewrite Hc, Hr).
    rewrite append_cons. unfold strip_leading_underscore.
    destruct (Ascii.eqb_spec c "_") as [->|_]; [congruence|].
    destruct c as [[] [] [] [] [] [] [] []]; reflexivity || congruence.
Qed.

(** The core of the round trip: PascalCase then snake_case is the
    identity on snake_case names. *)
Lemma snake_pascal_snake (name : string) :
  is_snake_case name = true -> toSnakeCase (toPascalCase name) = name.
Proof.
  unfold is_snake_case, toSnakeCase, toPascalCase. intros Hs.
  rewrite <- (join_split name) at 2.
  destruct (Js.split "_" name) as [|w ws]; [discriminate|].
  apply andb_true_iff in Hs as [Hw Hws].
  cbn [List.map]. rewrite join_cons, spread_append, spread_pascal by assumption.
  rewrite spread_first_word by assumption. apply join_underscored.
Qed.

Lemma split_chars (s : string) :
  forallb (Js.all_chars word_char) (Js.split "_" s) = true ->
  Js.all_chars (fun c => word_char c || Ascii.eqb c "_")%bool s = true.
Proof.
  induction s as [|c s IH]; [reflexivity|]. simpl.
  destruct (Ascii.eqb c "_") eqn:Hc.
  - simpl. intros Hs. rewrite orb_true_r. simpl. now apply IH.
  - pose proof (split_nonempty "_" s) as Hne.
    destruct (Js.split "_" s) as [|w ws]; [congruence|]. simpl.
    intros [[Hw Hr]%andb_true_iff Hws]%andb_true_iff.
    rewrite Hw. simpl. apply IH. simpl. now rewrite Hr, Hws.
Qed.

Lemma snake_word_chars (w : string) :
  snake_word w = true -> Js.all_chars word_char w = true.
Proof.
  destruct w as [|c r]; [discriminate|]. simpl.
  intros [Hc Hr]%andb_true_iff. unfold word_char at 1. now rewrite Hc, Hr.
Qed.

Lemma first_word_chars (w : string) :
  first_word w = true -> Js.all_chars word_char w = true.
Proof. destruct w as [|c r]; [discriminate|]. auto. Qed.

Lemma snake_chars (name : string) :
  is_snake_case name = true ->
  Js.all_chars (fun c => word_char c || Ascii.eqb c "_")%bool name = true.
Proof.
  intros Hs. apply split_chars. unfold is_snake_case in Hs.
  destruct (Js.split "_" name) as [|w ws]; [discriminate|].
  apply andb_true_iff in Hs as [Hw Hws]. cbn [forallb].
  rewrite (first_word_chars w Hw). simpl.
  rewrite forallb_forall in *. intros v Hv. apply snake_word_chars; auto.
Qed.

(** [f.replace('.v1.json', '')] removes the suffix of a schema file. *)
Lemma replace_suffix (name : string) :
  Js.all_chars (fun c => word_char c || Ascii.eqb c "_")%bool name = true ->
  Js.replace ".v1.json" "" (name +:+ ".v1.json") = name.
Proof.
  induction name as [|c r IH]; [reflexivity|].
  cbn [Js.all_chars]. intros [Hc Hr]%andb_true_iff.
  rewrite append_cons, replace_unfold, prefix_cons_ne, IH; auto.
  intros Heq. now apply (word_char_not_dot c Hc).
Qed.

Lemma schema_file_roundtrip (f : string) :
  schema_file_name f ->
  schemaNameOf (toPascalCase (Js.replace ".v1.json" "" f)) = f.
Proof.
  intros (name & -> & Hs). unfold schemaNameOf.
  rewrite replace_suffix by now apply snake_chars.
  now rewrite snake_pascal_snake.
Qed.

(** A word after the first that starts with a digit is glued to the word
    before it: the event type listed for the schema file
    [iso_20022_received.v1.json] is looked up under another name and
    finds no schema. *)
Lemma digit_word_not_recovered :
  In "iso_20022_received.v1.json" (schemaFiles Fixtures.with_digits) /\
  getSupportedEventTypes Fixtures.with_digits = ["Iso20022Received"] /\
  toSnakeCase (toPascalCase "iso_20022_received") = "iso20022_received" /\
  schemaNameOf "Iso20022Received" <> "iso_20022_received.v1.json" /\
  validateEvent Fixtures.with_digits
    (Js.Obj [("event_type", Js.Str "Iso20022Received")]) =
  Js.Throw (Js.Error
    "No schema registered for Iso20022Received (expected iso20022_received.v1.json)").
Proof. vm_compute. repeat split; auto. discriminate. Qed.

(** C7, as the code has it.  On a snake_case name whose words after the
    first begin with a letter, the PascalCase conversion of
    [getSupportedEventTypes] followed by the snake_case conversion of
    [validateEvent] is the identity, and a schema file made of such a name
    and [.v1.json] is recovered from its event type.  Hence, when every
    schema file of the registry other than the envelope is so named, the
    supported event types map back onto exactly those files, and each
    supported event type finds its schema. *)
Theorem schema_name_roundtrip (R : Registry) :
  (forall name, is_snake_case name = true ->
     toSnakeCase (toPascalCase name) = name /\
     schemaNameOf (toPascalCase (Js.replace ".v1.json" "" (name +:+ ".v1.json")))
       = name +:+ ".v1.json") /\
  ((forall f, In f (schemaFiles R) -> not_envelope f = true -> schema_file_name f) ->
   List.map schemaNameOf (getSupportedEventTypes R) =
     List.filter not_envelope (schemaFiles R) /\
   (forall t, In t (getSupportedEventTypes R) ->
      getSchema R (schemaNameOf t) = Some (compile R (schemaNameOf t)))).
Proof.
  split.
  - intros name Hs. split; [now apply snake_pascal_snake|].
    apply schema_file_roundtrip. now exists name.
  - intros Hnames.
    assert (Hmap : List.map schemaNameOf (getSupportedEventTypes R) =
                   List.filter not_envelope (schemaFiles R)).
    { unfold getSupportedEventTypes. rewrite List.map_map.
      rewrite <- (List.map_id (List.filter not_envelope (schemaFiles R))) at 2.
      apply List.map_ext_in. intros f [Hf He]%filter_In.
      apply schema_file_roundtrip. auto. }
    split; [exact Hmap|].
    intros t Ht. unfold getSchema.
    assert (Hin : In (schemaNameOf t) (schemaFiles R)).
    { apply (in_map schemaNameOf) in Ht. rewrite Hmap in Ht.
      now apply filter_In in Ht. }
    rewrite bool_decide_true; [reflexivity|]. now apply list_elem_of_In.
Qed.

Lemma schema_name_roundtrip_witness :
  toSnakeCase (toPascalCase "payment_settled") = "payment_settled" /\
  List.map schemaNameOf (getSupportedEventTypes Fixtures.documented) =
  ["payment_initiated.v1.json"; "payment_settled.v1.json";
   "command_rejected.v1.json"].
Proof.
  split.
  - apply (proj1 (schema_name_roundtrip Fixtures.documented) "payment_settled").
    reflexivity.
  - refine (proj1 (proj2 (schema_name_roundtrip Fixtures.documented) _)).
    intros f Hf He. simpl in Hf.
    destruct Hf as [<-|[<-|[<-|[<-|[]]]]]; try discriminate He.
    + exists "payment_initiated". split; reflexivity.
    + exists "payment_settled". split; reflexivity.
    + exists "command_rejected". split; reflexivity.
Defined.

End NameTransform.

(* ===================================================================== *)
(** * The emission gate                                                   *)
(* ===================================================================== *)

Section EmissionGate.
Import Gate.

Variable R : Registry.

(** What [validateEvent] does with an event that declares a type. *)
Lemma validateEvent_declared (event : Js.Val) (t : string) :
  Js.get "event_type" event = Js.Str t -> t <> "" ->
  validateEvent R event =
  match getSchema R (schemaNameOf t) with
  | None => Js.Throw (Js.Error ("No schema registered for " +:+ t
                                +:+ " (expected " +:+ schemaNameOf t +:+ ")"))
  | Some validate =>
      match validate event with
      | [] => Js.Return tt
      | errors => Js.Throw (Js.Error ("Schema violation for " +:+ t
                                      +:+ ": " +:+ errorsText errors))
      end
  end.
Proof.
  intros Ht Hne. unfold validateEvent. rewrite Ht.
  destruct event; try discriminate Ht. simpl.
  apply String.eqb_neq in Hne. now rewrite Hne.
Qed.

Lemma emitEvent_invalid (event : Js.Val) (st : State) (e : Js.Err) :
  validateEvent R event = Js.Throw e -> emitEvent R event st = (Js.Throw e, st).
Proof. intros Hv. unfold emitEvent. now rewrite Hv. Qed.

(** C6.  [emitEvent] validates before it publishes.  An event rejected
    by [validateEvent] is thrown back with the state untouched, so
    nothing was handed to the publisher: with a message containing
    "Schema violation" when the registered schema reports errors, with
    one containing "No schema registered" when the declared type has no
    schema.  A valid event without a configured publisher fails with
    the publisher-not-configured error; with a publisher the event is
    handed over exactly once. *)
Theorem emitEvent_validates_first (event : Js.Val) (st : State) :
  (forall e, validateEvent R event = Js.Throw e ->
     emitEvent R event st = (Js.Throw e, st)) /\
  (forall t validate,
     Js.get "event_type" event = Js.Str t -> t <> "" ->
     getSchema R (schemaNameOf t) = Some validate -> validate event <> [] ->
     exists msg, emitEvent R event st = (Js.Throw (Js.Error msg), st) /\
                 Js.includes "Schema violation" msg = true) /\
  (forall t,
     Js.get "event_type" event = Js.Str t -> t <> "" ->
     getSchema R (schemaNameOf t) = None ->
     exists msg, emitEvent R event st = (Js.Throw (Js.Error msg), st) /\
                 Js.includes "No schema registered" msg = true) /\
  (validateEvent R event = Js.Return tt -> publisher st = None ->
     emitEvent R event st =
     (Js.Throw (Js.Error
        "Event publisher not configured. Call setPublisher() first."), st)) /\
  (forall p, validateEvent R event = Js.Return tt -> publisher st = Some p ->
     published (snd (emitEvent R event st)) = published st ++ [event]) /\
  (published (snd (emitEvent R event st)) <> published st ->
     validateEvent R event = Js.Return tt).
Proof.
  repeat split.
  - intros e. apply emitEvent_invalid.
  - intros t validate Ht Hne Hs Herr.
    pose proof (validateEvent_declared event t Ht Hne) as Hv. rewrite Hs in Hv.
    destruct (validate event) as [|x xs] eqn:Hx; [congruence|].
    eexists. split; [apply emitEvent_invalid; exact Hv|].
    change ("Schema violation for " +:+ t +:+ ": " +:+ errorsText (x :: xs))
      with ("Schema violation" +:+ (" for " +:+ t +:+ ": " +:+ errorsText (x :: xs))).
    apply includes_prefix.
  - intros t Ht Hne Hs.
    pose proof (validateEvent_declared event t Ht Hne) as Hv. rewrite Hs in Hv.
    eexists. split; [apply emitEvent_invalid; exact Hv|].
    change ("No schema registered for " +:+ t +:+ " (expected "
            +:+ schemaNameOf t +:+ ")")
      with ("No schema registered" +:+ (" for " +:+ t +:+ " (expected "
            +:+ schemaNameOf t +:+ ")")).
    apply includes_prefix.
  - intros Hv Hp. unfold emitEvent. now rewrite Hv, Hp.
  - intros p Hv Hp. unfold emitEvent. rewrite Hv, Hp.
    now destruct (p event).
  - intros Hpub. unfold emitEvent in Hpub.
    destruct (validateEvent R event) as [[]|e]; [reflexivity|].
    now elim Hpub.
Qed.

End EmissionGate.

Lemma emitEvent_validates_first_witness :
  let st := Gate.setPublisher Fixtures.always_publishes Gate.initial in
  (exists msg,
     Gate.emitEvent Fixtures.strict (Fixtures.settled_event []) st
       = (Js.Throw (Js.Error msg), st) /\
     Js.includes "Schema violation" msg = true) /\
  (exists msg,
     Gate.emitEvent Fixtures.strict Fixtures.unsupported_event st
       = (Js.Throw (Js.Error msg), st) /\
     Js.includes "No schema registered" msg = true) /\
  Gate.emitEvent Fixtures.strict
    (Fixtures.settled_event [("ledger_posting", Js.Obj [])]) Gate.initial
  = (Js.Throw (Js.Error
       "Event publisher not configured. Call setPublisher() first."),
     Gate.initial).
Proof.
  intros st. split; [|split].
  - apply (proj1 (proj2 (emitEvent_validates_first Fixtures.strict
                           (Fixtures.settled_event []) st))
             "PaymentSettled" Fixtures.settled_schema);
      [reflexivity | discriminate | reflexivity | discriminate].
  - apply (proj1 (proj2 (proj2 (emitEvent_validates_first Fixtures.strict
                           Fixtures.unsupported_event st)))
             "UnsupportedEventType");
      [reflexivity | discriminate | reflexivity].
  - apply (proj1 (proj2 (proj2 (proj2 (emitEvent_validates_first Fixtures.strict
             (Fixtures.settled_event [("ledger_posting", Js.Obj [])])
             Gate.initial)))));
      reflexivity.
Defined.

(* ===================================================================== *)
(** * The idempotency store                                               *)
(* ===================================================================== *)

Section IdempotencyStore.
Import Runtime.

Variable E : Env.

Lemma isProcessed_lookup (id : string) (w : World) :
  Store.isProcessed id w = true <-> is_Some (processedCommands w !! id).
Proof. unfold Store.isProcessed. apply bool_decide_eq_true. Qed.

Lemma isProcessed_none (id : string) (w : World) :
  Store.isProcessed id w = false <-> processedCommands w !! id = None.
Proof.
  unfold Store.isProcessed. rewrite bool_decide_eq_false.
  now rewrite eq_None_not_Some.
Qed.

(** C8.  [markProcessed] on a key that is present throws
    "Command <id> already processed" and leaves the store as it was: the
    record under the key and the count are those of before. *)
Theorem markProcessed_present (id ty : string) (rid : option string)
    (w : World) :
  Store.isProcessed id w = true ->
  Store.markProcessed E id ty rid w =
    (Js.Throw (Js.Error ("Command " +:+ id +:+ " already processed")), w) /\
  Js.includes "already processed"
    (Js.message (Js.Error ("Command " +:+ id +:+ " already processed"))) = true /\
  Store.getRecord id (snd (Store.markProcessed E id ty rid w)) =
    Store.getRecord id w /\
  Store.count (snd (Store.markProcessed E id ty rid w)) = Store.count w.
Proof.
  intros Hp. unfold Store.markProcessed. rewrite Hp. simpl.
  repeat split.
  simpl. now do 2 apply includes_append_r.
Qed.

(** On an absent key [markProcessed] records the command. *)
Lemma markProcessed_absent (id ty : string) (rid : option string) (w : World) :
  Store.isProcessed id w = false ->
  exists w', Store.markProcessed E id ty rid w = (Js.Return tt, w') /\
             Store.isProcessed id w' = true /\
             Store.count w' = S (Store.count w) /\
             console w' = console w /\ uuids_drawn w' = uuids_drawn w.
Proof.
  intros Hp. unfold Store.markProcessed. rewrite Hp. simpl.
  eexists. split; [reflexivity|]. repeat split.
  - apply isProcessed_lookup. simpl. rewrite lookup_insert_eq. eauto.
  - unfold Store.count. simpl. apply map_size_insert_None.
    now apply isProcessed_none.
Qed.

End IdempotencyStore.

Lemma markProcessed_present_witness :
  let w := snd (Store.markProcessed Fixtures.env "cmd-003" "InitiatePayment"
                  None Runtime.initial) in
  Store.markProcessed Fixtures.env "cmd-003" "InitiatePayment" None w =
    (Js.Throw (Js.Error "Command cmd-003 already processed"), w).
Proof.
  intros w.
  apply (markProcessed_present Fixtures.env "cmd-003" "InitiatePayment" None w).
  vm_compute. reflexivity.
Defined.

(* ===================================================================== *)
(** * The rejection emitter                                               *)
(* ===================================================================== *)

Section RejectionEmitter.
Import Runtime Emitter.

Variable E : Env.
Variable R : Gate.Registry.

(** The event [emit] builds in world [w]. *)
Lemma emit_unfold (payload : CommandRejectedPayload) (w : World) :
  let id := uuidv4_at E (uuids_drawn w) in
  let event := build_event payload id
                 (toISOString E (date_at E (clock_reads w))) in
  let w2 := snd (newDate E (snd (uuidv4 E w))) in
  emit E R payload w =
  match Gate.validateEvent R event with
  | Js.Throw e => (Js.Throw e, w2)
  | Js.Return _ => (Js.Return id, console_log event w2)
  end.
Proof. reflexivity. Qed.

Lemma emit_outcome (payload : CommandRejectedPayload) (w : World) :
  outcome_for R
    (build_event payload (uuidv4_at E (uuids_drawn w))
       (toISOString E (date_at E (clock_reads w))))
    w (emit E R payload w).
Proof.
  rewrite emit_unfold. cbv zeta. unfold outcome_for.
  split; [reflexivity|].
  destruct (Gate.validateEvent R _) as [[]|e]; simpl.
  - split; [reflexivity|]. eexists. repeat split.
  - repeat split.
Qed.

Lemma helper_outcome (payload : CommandRejectedPayload) (w : World) :
  outcome_for R
    (build_event payload (uuidv4_at E (uuids_drawn w))
       (toISOString E (date_at E (S (clock_reads w)))))
    w (emit E R payload (snd (newDate E w))).
Proof. exact (emit_outcome payload (snd (newDate E w))). Qed.

(** Every helper reads the clock for [rejected_at], then calls [emit]. *)
Lemma call_unfold (h : Helper) (cid cty : string) (corr : option string)
    (w : World) :
  exists payload,
    call E R h cid cty corr w = emit E R payload (snd (newDate E w)) /\
    rejected_at payload = toISOString E (date_at E (clock_reads w)) /\
    command_id payload = cid /\ command_type payload = cty /\
    correlation_id payload = corr /\ reason_code payload = reason_of h /\
    match h with
    | InsufficientFunds a b =>
        metadata payload = Some [("required_amount", Js.Num a);
                                 ("available_amount", Js.Num b)]
    | InvalidStateTransition a b =>
        metadata payload = Some [("current_state", Js.Str a);
                                 ("attempted_transition", Js.Str b)]
    | _ => True
    end.
Proof. destruct h; eexists; (split; [reflexivity|]); repeat split. Qed.

(** C9.  Whichever helper is called, the event it builds carries as
    [event_id] the value of the [uuidv4()] call made during this very
    call (the generator advances by one), as [payload.rejected_at] the
    clock reading taken on entry, and, when the caller passes no
    correlation id, the new [event_id] as [correlation_id].  The call
    returns that id after writing the event, unless [validateEvent]
    refuses the event. *)
Theorem helpers_stamp_fresh_id (h : Helper) (cid cty : string)
    (corr : option string) (w : World) :
  exists event,
    outcome_for R event w (call E R h cid cty corr w) /\
    uuids_drawn (snd (call E R h cid cty corr w)) = S (uuids_drawn w) /\
    Js.get "event_id" event = Js.Str (uuidv4_at E (uuids_drawn w)) /\
    Js.get "rejected_at" (Js.get "payload" event) =
      Js.Str (toISOString E (date_at E (clock_reads w))) /\
    event_reason_code event = Js.Str (reason_string (reason_of h)) /\
    (corr = None -> Js.get "correlation_id" event = Js.get "event_id" event).
Proof.
  destruct (call_unfold h cid cty corr w)
    as (payload & -> & Hat & _ & _ & Hcorr & Hcode & _).
  eexists. split; [|split].
  - apply helper_outcome.
  - rewrite emit_unfold. cbv zeta.
    now destruct (Gate.validateEvent R _) as [[]|e].
  - unfold event_reason_code. simpl. rewrite Hat, Hcode, Hcorr. repeat split.
    now intros ->.
Qed.

End RejectionEmitter.

Lemma helpers_stamp_fresh_id_witness :
  exists event,
    Emitter.outcome_for Fixtures.accepting event Runtime.initial
      (Emitter.emitDuplicateCommand Fixtures.env Fixtures.accepting
         "cmd-001" "InitiatePayment" None Runtime.initial) /\
    Js.get "event_id" event = Js.Str "uuid-0" /\
    Js.get "correlation_id" event = Js.Str "uuid-0".
Proof.
  destruct (helpers_stamp_fresh_id Fixtures.env Fixtures.accepting
              Emitter.DuplicateCommand "cmd-001" "InitiatePayment" None
              Runtime.initial)
    as (event & Hout & _ & Hid & _ & _ & Hcorr).
  exists event. split; [exact Hout|]. split; [exact Hid|].
  rewrite (Hcorr eq_refl). exact Hid.
Defined.

(* ===================================================================== *)
(** * The command handler                                                 *)
(* ===================================================================== *)

Section CommandHandling.
Import Runtime Handler.

Context {X : Type}.
Variable E : Env.
Variable R : Gate.Registry.
Variable H : Impl X.

Lemma handle_path (c : Command) (s : State X) : path E R H c s (handle E R H c s).
Proof.
  unfold handle.
  destruct (Store.isProcessed (command_id c) (world s)) eqn:Hp.
  - now apply Duplicate.
  - simpl. destruct (validate H c (domain s)) as [[u|e] x1] eqn:Hv.
    + simpl. destruct (execute H c x1) as [[eid|e] x2] eqn:Hx.
      * eapply Executed; eauto.
      * eapply Failed; eauto.
    + now apply Invalid.
Qed.

(** Cutting [handle] at the [await] and resuming at once is [handle]. *)
Lemma handle_split (c : Command) (s : State X) :
  handle E R H c s =
  handle_resume E R (fst (handle_start E R H c s)) (snd (handle_start E R H c s)).
Proof.
  unfold handle, handle_start.
  destruct (Store.isProcessed (command_id c) (world s)).
  - now destruct (rejectDuplicate E R c s).
  - simpl. destruct (validate H c (domain s)) as [[u|e] x1].
    + simpl. now destruct (execute H c x1) as [[eid|e] x2].
    + now destruct (handleRejection E R c e _).
Qed.

(** The helper chosen for an error, and what it puts in the event. *)
Lemma emitFor_outcome (c : Command) (e : Js.Err) (w : World) :
  exists event,
    Emitter.outcome_for R event w (emitFor E R c e w) /\
    Emitter.event_reason_code event =
      Js.Str (Emitter.reason_string (spec_reason (Js.message e))) /\
    spec_metadata (Js.message e) event /\
    Js.get "command_id" (Js.get "payload" event) = Js.Str (command_id c).
Proof.
  unfold emitFor, spec_metadata, spec_reason.
  destruct (Js.includes "validation" (Js.message e));
    [|destruct (Js.includes "insufficient funds" (Js.message e));
      [|destruct (Js.includes "state transition" (Js.message e))]];
    (eexists; split; [refine (helper_outcome E R _ _)|]); repeat split.
Qed.

Lemma emitDuplicate_outcome (c : Command) (w : World) :
  exists event,
    Emitter.outcome_for R event w
      (Emitter.emitDuplicateCommand E R (command_id c) (command_type c)
         (correlation_id c) w) /\
    Emitter.event_reason_code event = Js.Str "DUPLICATE_COMMAND" /\
    Js.get "command_id" (Js.get "payload" event) = Js.Str (command_id c).
Proof. eexists; split; [refine (helper_outcome E R _ _)|]; repeat split. Qed.

(** On an error object [handleRejection] goes on to the emitter. *)
Lemma handleRejection_unfold (c : Command) (e : Js.Err) (s : State X) :
  Js.has_message e = true ->
  handleRejection E R c e s =
  match emitFor E R c e (world s) with
  | (Js.Throw e', w) => (Js.Throw e', set_world w s)
  | (Js.Return rejection_event_id, w) =>
      (Js.Return {| success := false;
                    event_id := None;
                    rejection_event_id := Some rejection_event_id;
                    reason := Some (Js.message e) |},
       set_world w s)
  end.
Proof. destruct e; [reflexivity | reflexivity | discriminate]. Qed.

Lemma handleRejection_rejected (c : Command) (e : Js.Err) (s : State X) :
  Js.has_message e = true ->
  exists event,
    rejected_with R event (Js.message e) s (handleRejection E R c e s) /\
    Emitter.event_reason_code event =
      Js.Str (Emitter.reason_string (spec_reason (Js.message e))) /\
    spec_metadata (Js.message e) event /\
    domain (snd (handleRejection E R c e s)) = domain s /\
    calls (snd (handleRejection E R c e s)) = calls s.
Proof.
  intros Hmsg. rewrite (handleRejection_unfold c e s Hmsg).
  destruct (emitFor_outcome c e (world s)) as (event & Ho & Hcode & Hmeta & _).
  exists event. unfold rejected_with.
  destruct Ho as (Hty & Hstore & Ho).
  destruct (emitFor E R c e (world s)) as [[id|e'] w']; simpl in *;
    (split; [|auto]); (split; [exact Hty|]); (split; [exact Hstore|]);
    destruct (Gate.validateEvent R event) as [[]|e''].
  - destruct Ho as (id' & Hid & [= ->] & Hc). eauto.
  - now destruct Ho.
  - now destruct Ho as (id' & _ & ? & _).
  - destruct Ho as [[= ->] Hc]. auto.
Qed.

(** Whatever was thrown, [handleRejection] leaves the store, the
    collaborator and the record of calls alone, and a value it returns
    was thrown with a message. *)
Lemma handleRejection_frame (c : Command) (e : Js.Err) (s : State X) :
  processedCommands (world (snd (handleRejection E R c e s))) =
    processedCommands (world s) /\
  domain (snd (handleRejection E R c e s)) = domain s /\
  calls (snd (handleRejection E R c e s)) = calls s.
Proof.
  destruct (Js.has_message e) eqn:Hmsg.
  - destruct (handleRejection_rejected c e s Hmsg)
      as (event & (_ & Hs & _) & _ & _ & Hd & Hc). auto.
  - destruct e; try discriminate. simpl. auto.
Qed.

Lemma handleRejection_returns (c : Command) (e : Js.Err) (s : State X)
    (r : CommandResult) :
  fst (handleRejection E R c e s) = Js.Return r -> Js.has_message e = true.
Proof. destruct e; [reflexivity | reflexivity | discriminate]. Qed.

Lemma rejectDuplicate_rejected (c : Command) (s : State X) :
  exists event,
    rejected_with R event "Duplicate command" s (rejectDuplicate E R c s) /\
    Emitter.event_reason_code event = Js.Str "DUPLICATE_COMMAND" /\
    domain (snd (rejectDuplicate E R c s)) = domain s /\
    calls (snd (rejectDuplicate E R c s)) = calls s.
Proof.
  destruct (emitDuplicate_outcome c (world s)) as (event & Ho & Hcode & _).
  exists event. unfold rejectDuplicate, rejected_with.
  destruct Ho as (Hty & Hstore & Ho).
  destruct (Emitter.emitDuplicateCommand E R _ _ _ (world s)) as [[id|e'] w'];
    simpl in *;
    (split; [|auto]); (split; [exact Hty|]); (split; [exact Hstore|]);
    destruct (Gate.validateEvent R event) as [[]|e''].
  - destruct Ho as (id' & Hid & [= ->] & Hc). eauto.
  - now destruct Ho.
  - now destruct Ho as (id' & _ & ? & _).
  - destruct Ho as [[= ->] Hc]. auto.
Qed.

(** With the key absent, [commit] marks the command and succeeds. *)
Lemma commit_absent (c : Command) (eid : string) (s : State X) :
  Store.isProcessed (command_id c) (world s) = false ->
  exists w',
    commit E R c eid s =
      (Js.Return {| success := true; event_id := Some eid;
                    rejection_event_id := None; reason := None |},
       set_world w' (log_call (CallMarkProcessed (command_id c)) s)) /\
    Store.isProcessed (command_id c) w' = true /\
    console w' = console (world s).
Proof.
  intros Hp. unfold commit.
  destruct (markProcessed_absent E (command_id c) (command_type c) (Some eid)
              (world s) Hp) as (w' & Hm & Hp' & _ & Hc & _).
  simpl. rewrite Hm. eauto.
Qed.

Lemma raised_path (c : Command) (s : State X) (e : Js.Err) :
  Store.isProcessed (command_id c) (world s) = false ->
  raised H c (domain s) e ->
  exists s0, handle E R H c s = handleRejection E R c e s0 /\
             world s0 = world s /\
             (exists new, calls s0 = calls s ++ new /\
                          forall id, ~ In (CallMarkProcessed id) new).
Proof.
  intros Hp Hr. unfold handle. rewrite Hp. simpl.
  destruct Hr as [(x1 & Hv)|(u & x1 & x2 & Hv & Hx)]; rewrite Hv; simpl.
  - eexists. split; [reflexivity|]. split; [reflexivity|].
    exists [CallValidate c]. split; [reflexivity|].
    intros id [Hin|[]]. discriminate.
  - rewrite Hx. eexists. split; [reflexivity|]. split; [reflexivity|].
    exists [CallValidate c; CallExecute c]. simpl. rewrite <- app_assoc.
    split; [reflexivity|]. intros id [Hin|[Hin|[]]]; discriminate.
Qed.

(** X26.  The duplicate branch.  A command whose id is in the store is
    answered without [validate] or [execute] being called and with the
    store left alone: [handle] builds one DUPLICATE_COMMAND rejection
    and, when [validateEvent] lets it through, writes it and returns
    [success = false], the event's id as [rejection_event_id] and the
    reason "Duplicate command"; when [validateEvent] refuses it, that
    error leaves [handle] instead of a result. *)
Theorem duplicate_is_rejected (c : Command) (s : State X) :
  Store.isProcessed (command_id c) (world s) = true ->
  exists event,
    rejected_with R event "Duplicate command" s (handle E R H c s) /\
    Emitter.event_reason_code event = Js.Str "DUPLICATE_COMMAND" /\
    calls (snd (handle E R H c s)) = calls s /\
    domain (snd (handle E R H c s)) = domain s /\
    (Emitter.gate_accepts_rejections R ->
     exists id,
       fst (handle E R H c s) =
       Js.Return {| success := false; event_id := None;
                    rejection_event_id := Some id;
                    reason := Some "Duplicate command" |}).
Proof.
  intros Hp. unfold handle. rewrite Hp.
  destruct (rejectDuplicate_rejected c s) as (event & Hrej & Hcode & Hd & Hc).
  exists event. repeat (split; [assumption|]).
  intros Hgate. destruct Hrej as (Hty & _ & Hrej).
  rewrite (Hgate event Hty) in Hrej.
  destruct Hrej as (id & _ & Hres & _). eauto.
Qed.


(** C5.  A result returned by [handle] has one of two shapes: success
    with [event_id] and neither [rejection_event_id] nor [reason], or
    failure with [rejection_event_id] and [reason] and no [event_id];
    so it never carries both ids and never neither. *)
Theorem result_has_one_shape (c : Command) (s s' : State X)
    (r : CommandResult) :
  handle E R H c s = (Js.Return r, s') ->
  (success_shape r \/ failure_shape r) /\
  ~ (is_Some (event_id r) /\ is_Some (rejection_event_id r)) /\
  (is_Some (event_id r) \/ is_Some (rejection_event_id r)).
Proof.
  intros Hh.
  assert (Hshape : success_shape r \/ failure_shape r).
  { pose proof (handle_path c s) as Hpath. rewrite Hh in Hpath.
    remember (Js.Return r, s') as out eqn:Hout.
    destruct Hpath as [Hp|e x1 Hp Hv|u e x1 x2 Hp Hv Hx|u eid x1 x2 Hp Hv Hx].
    - destruct (rejectDuplicate_rejected c s) as (event & (_ & _ & Hrej) & _).
      rewrite Hout in Hrej. simpl in Hrej. right.
      destruct (Gate.validateEvent R event) as [[]|e'].
      + destruct Hrej as (id & _ & [= ->] & _). repeat split; simpl; eauto.
      + now destruct Hrej.
    - destruct (handleRejection_rejected c e
                  (set_domain x1 (log_call (CallValidate c) s)))
        as (event & (_ & _ & Hrej) & _);
        [apply (handleRejection_returns c e
                  (set_domain x1 (log_call (CallValidate c) s)) r);
         now rewrite Hout|].
      rewrite Hout in Hrej. simpl in Hrej. right.
      destruct (Gate.validateEvent R event) as [[]|e'].
      + destruct Hrej as (id & _ & [= ->] & _). repeat split; simpl; eauto.
      + now destruct Hrej.
    - destruct (handleRejection_rejected c e
                  (set_domain x2 (log_call (CallExecute c)
                     (set_domain x1 (log_call (CallValidate c) s)))))
        as (event & (_ & _ & Hrej) & _);
        [apply (handleRejection_returns c e
                  (set_domain x2 (log_call (CallExecute c)
                     (set_domain x1 (log_call (CallValidate c) s)))) r);
         now rewrite Hout|].
      rewrite Hout in Hrej. simpl in Hrej. right.
      destruct (Gate.validateEvent R event) as [[]|e'].
      + destruct Hrej as (id & _ & [= ->] & _). repeat split; simpl; eauto.
      + now destruct Hrej.
    - destruct (commit_absent c eid
                  (set_domain x2 (log_call (CallExecute c)
                     (set_domain x1 (log_call (CallValidate c) s)))) Hp)
        as (w' & Hc & _).
      rewrite Hc in Hout. injection Hout as <- _.
      left. repeat split; simpl; eauto. }
  split; [exact Hshape|].
  destruct Hshape as [(_ & He & Hr & _)|(_ & Hr & _ & He)]; rewrite ?Hr, ?He;
    split; auto; intros [[? ?] [? ?]]; discriminate.
Qed.

Lemma isProcessed_same (id : string) (w w' : World) :
  processedCommands w' = processedCommands w ->
  Store.isProcessed id w' = Store.isProcessed id w.
Proof. unfold Store.isProcessed. now intros ->. Qed.

Lemma handleRejection_failure (c : Command) (e : Js.Err) (s0 : State X)
    (r : CommandResult) :
  fst (handleRejection E R c e s0) = Js.Return r ->
  success r = false /\ reason r = Some (Js.message e).
Proof.
  intros Hret. pose proof (handleRejection_returns c e s0 r Hret) as Hmsg.
  rewrite (handleRejection_unfold c e s0 Hmsg) in Hret. revert Hret.
  destruct (emitFor E R c e (world s0)) as [[id|e'] w']; simpl;
    [now intros [= <-] | discriminate].
Qed.

(** C2.  For a command whose id is not in the store: a success result
    leaves the id processed; an error raised by [validate] or [execute]
    leaves it unprocessed, and the result, if one is returned, is a
    failure carrying the error's message; a failure result only comes
    from such an error; and [markProcessed] is called only after
    [validate] and [execute] have both returned, as the last of the
    three calls. *)
Theorem processed_exactly_on_success (c : Command) (s : State X) :
  Store.isProcessed (command_id c) (world s) = false ->
  (forall r, fst (handle E R H c s) = Js.Return r -> success r = true ->
     Store.isProcessed (command_id c) (world (snd (handle E R H c s))) = true) /\
  (forall e, raised H c (domain s) e ->
     Store.isProcessed (command_id c) (world (snd (handle E R H c s))) = false /\
     forall r, fst (handle E R H c s) = Js.Return r ->
               success r = false /\ reason r = Some (Js.message e)) /\
  (forall r, fst (handle E R H c s) = Js.Return r -> success r = false ->
     exists e, raised H c (domain s) e) /\
  (forall id, In (CallMarkProcessed id) (calls (snd (handle E R H c s))) ->
     In (CallMarkProcessed id) (calls s) \/
     exists u event_id x1 x2,
       validate H c (domain s) = (Js.Return u, x1) /\
       execute H c x1 = (Js.Return event_id, x2) /\
       calls (snd (handle E R H c s)) =
         calls s ++ [CallValidate c; CallExecute c;
                     CallMarkProcessed (command_id c)]).
Proof.
  intros Hp.
  assert (Hraised : forall e, raised H c (domain s) e ->
     Store.isProcessed (command_id c) (world (snd (handle E R H c s))) = false /\
     (forall r, fst (handle E R H c s) = Js.Return r ->
                success r = false /\ reason r = Some (Js.message e)) /\
     (forall id, In (CallMarkProcessed id) (calls (snd (handle E R H c s))) ->
                 In (CallMarkProcessed id) (calls s))).
  { intros e Hr.
    destruct (raised_path c s e Hp Hr) as (s0 & -> & Hw & new & Hnew & Hno).
    destruct (handleRejection_frame c e s0) as (Hstore & _ & Hcalls).
    split; [|split].
    - rewrite (isProcessed_same _ _ _ Hstore), Hw. exact Hp.
    - intros r. apply handleRejection_failure.
    - intros id. rewrite Hcalls, Hnew, in_app_iff.
      intros [Hin|Hin]; [exact Hin | now elim (Hno id)]. }
  pose proof (handle_path c s) as Hpath.
  remember (handle E R H c s) as out eqn:Hout in *.
  destruct Hpath as [Hd|e x1 _ Hv|u e x1 x2 _ Hv Hx|u eid x1 x2 _ Hv Hx];
    [congruence| | |].
  - assert (Hr : raised H c (domain s) e) by (left; eauto).
    destruct (Hraised e Hr) as (Hnot & Hres & Hcalls).
    split; [|split; [|split]].
    + intros r Hret Hs. destruct (Hres r Hret). congruence.
    + intros e0 Hr0. destruct (Hraised e0 Hr0) as (? & ? & _). auto.
    + eauto.
    + intros id Hin. left. auto.
  - assert (Hr : raised H c (domain s) e) by (right; eauto 6).
    destruct (Hraised e Hr) as (Hnot & Hres & Hcalls).
    split; [|split; [|split]].
    + intros r Hret Hs. destruct (Hres r Hret). congruence.
    + intros e0 Hr0. destruct (Hraised e0 Hr0) as (? & ? & _). auto.
    + eauto.
    + intros id Hin. left. auto.
  - destruct (commit_absent c eid
                (set_domain x2 (log_call (CallExecute c)
                   (set_domain x1 (log_call (CallValidate c) s)))) Hp)
      as (w' & Hc & Hp' & _).
    rewrite Hc in *. simpl.
    split; [|split; [|split]].
    + auto.
    + intros e0 Hr0. destruct (Hraised e0 Hr0) as (? & ? & _). auto.
    + intros r [= <-]. discriminate.
    + intros id Hin. right. exists u, eid, x1, x2.
      repeat (split; [assumption|]). now rewrite <- !app_assoc.
Qed.

Lemma spec_reason_codes (m : string) :
  Emitter.reason_string (spec_reason m) <> "AUTHORIZATION_FAILED" /\
  Emitter.reason_string (spec_reason m) <> "RATE_LIMIT_EXCEEDED".
Proof.
  unfold spec_reason.
  destruct (Js.includes "validation" m);
    [|destruct (Js.includes "insufficient funds" m);
      [|destruct (Js.includes "state transition" m)]];
    split; discriminate.
Qed.

Lemma rejected_console (event : Js.Val) (why : string) (s0 : State X)
    (out : Js.Completion CommandResult * State X) (ev : Js.Val) :
  rejected_with R event why s0 out ->
  In ev (console (world (snd out))) ->
  In ev (console (world s0)) \/ ev = event.
Proof.
  intros (_ & _ & Hrej).
  destruct (Gate.validateEvent R event) as [[]|e'].
  - destruct Hrej as (id & _ & _ & ->). rewrite in_app_iff. simpl. intuition.
  - destruct Hrej as [_ ->]. auto.
Qed.

(** C10.  The rejection [handle] builds for an error raised by
    [validate] or [execute], an object with its message, is classified
    by the first of the substrings "validation", "insufficient funds",
    "state transition" found in the error's message: INVALID_SCHEMA;
    INSUFFICIENT_FUNDS with both amounts 0; INVALID_STATE_TRANSITION with
    both states "unknown"; otherwise BUSINESS_RULE_VIOLATION.  The
    result's reason is the message itself.  No event [handle] writes is
    classified AUTHORIZATION_FAILED or RATE_LIMIT_EXCEEDED. *)
Theorem classification_by_substring (c : Command) (s : State X) :
  (forall e,
     Store.isProcessed (command_id c) (world s) = false ->
     raised H c (domain s) e -> Js.has_message e = true ->
     exists event,
       rejected_with R event (Js.message e) s (handle E R H c s) /\
       Emitter.event_reason_code event =
         Js.Str (Emitter.reason_string (spec_reason (Js.message e))) /\
       spec_metadata (Js.message e) event) /\
  (forall event,
     In event (console (world (snd (handle E R H c s)))) ->
     In event (console (world s)) \/
     (Emitter.event_reason_code event <> Js.Str "AUTHORIZATION_FAILED" /\
      Emitter.event_reason_code event <> Js.Str "RATE_LIMIT_EXCEEDED")).
Proof.
  split.
  - intros e Hp Hr Hmsg.
    destruct (raised_path c s e Hp Hr) as (s0 & -> & Hw & _).
    destruct (handleRejection_rejected c e s0 Hmsg)
      as (event & Hrej & Hcode & Hm & _).
    exists event. split; [|auto].
    unfold rejected_with in *. now rewrite <- Hw.
  - intros ev Hin.
    assert (Hby : forall e (s0 : State X), world s0 = world s ->
              In ev (console (world (snd (handleRejection E R c e s0)))) ->
              In ev (console (world s)) \/
              (Emitter.event_reason_code ev <> Js.Str "AUTHORIZATION_FAILED" /\
               Emitter.event_reason_code ev <> Js.Str "RATE_LIMIT_EXCEEDED")).
    { intros e s0 Hw Hin0. destruct (Js.has_message e) eqn:Hmsg.
      - destruct (handleRejection_rejected c e s0 Hmsg)
          as (event & Hrej & Hcode & _).
        destruct (rejected_console _ _ _ _ ev Hrej Hin0) as [Hold| ->].
        + left. now rewrite <- Hw.
        + right. rewrite Hcode.
          destruct (spec_reason_codes (Js.message e)). split; congruence.
      - destruct e; try discriminate. simpl in Hin0. left. now rewrite <- Hw. }
    pose proof (handle_path c s) as Hpath.
    remember (handle E R H c s) as out eqn:Hout in *.
    destruct Hpath as [Hd|e x1 Hp Hv|u e x1 x2 Hp Hv Hx|u eid x1 x2 Hp Hv Hx].
    + destruct (rejectDuplicate_rejected c s) as (event & Hrej & Hcode & _).
      destruct (rejected_console _ _ _ _ ev Hrej Hin) as [Hold| ->]; [auto|].
      right. rewrite Hcode. split; discriminate.
    + eapply Hby; [|exact Hin]. reflexivity.
    + eapply Hby; [|exact Hin]. reflexivity.
    + destruct (commit_absent c eid
                  (set_domain x2 (log_call (CallExecute c)
                     (set_domain x1 (log_call (CallValidate c) s)))) Hp)
        as (w' & Hc & _ & Hcon).
      rewrite Hc in Hin. simpl in Hin. rewrite Hcon in Hin. auto.
Qed.

Lemma handle_start_store (c : Command) (s : State X) :
  processedCommands (world (snd (handle_start E R H c s))) =
  processedCommands (world s).
Proof.
  unfold handle_start.
  destruct (Store.isProcessed (command_id c) (world s)).
  - destruct (rejectDuplicate_rejected c s) as (event & (_ & Hs & _) & _).
    now destruct (rejectDuplicate E R c s).
  - simpl. destruct (validate H c (domain s)) as [[u|e] x1].
    + simpl. now destruct (execute H c x1).
    + destruct (handleRejection_frame c e
                  (set_domain x1 (log_call (CallValidate c) s)))
        as (Hs & _).
      now destruct (handleRejection E R c e _).
Qed.

Lemma handle_start_validates (c : Command) (s : State X) :
  Store.isProcessed (command_id c) (world s) = false ->
  exists rest, calls (snd (handle_start E R H c s)) =
               calls s ++ CallValidate c :: rest.
Proof.
  intros Hp. unfold handle_start. rewrite Hp. simpl.
  destruct (validate H c (domain s)) as [[u|e] x1].
  - simpl. destruct (execute H c x1). simpl.
    exists [CallExecute c]. now rewrite <- app_assoc.
  - destruct (handleRejection_frame c e
                (set_domain x1 (log_call (CallValidate c) s)))
      as (_ & _ & Hcalls).
    destruct (handleRejection E R c e _). simpl in *.
    exists []. exact Hcalls.
Qed.

Lemma executions_three (c : Command) (l : list Call) :
  executions (command_id c)
    (l ++ [CallValidate c; CallExecute c; CallMarkProcessed (command_id c)]) =
  S (executions (command_id c) l).
Proof.
  unfold executions. rewrite List.filter_app, List.length_app. simpl.
  rewrite String.eqb_refl. simpl. lia.
Qed.

(** X27.  The duplicate check and [markProcessed] are two steps with the
    [await] of [execute] between them.  An invocation that starts while
    another one for the same unprocessed id is suspended there still
    finds the id absent and calls [validate].  When the second invocation
    starts after the first has returned success, the first has executed
    once and the second calls neither [validate] nor [execute] and
    answers with a DUPLICATE_COMMAND rejection. *)
Theorem duplicate_check_then_mark (c : Command) (s : State X) :
  Store.isProcessed (command_id c) (world s) = false ->
  (forall t1 s1, handle_start E R H c s = (t1, s1) ->
     Store.isProcessed (command_id c) (world s1) = false /\
     exists rest, calls (snd (handle_start E R H c s1)) =
                  calls s1 ++ CallValidate c :: rest) /\
  (forall r1 s1, handle E R H c s = (Js.Return r1, s1) -> success r1 = true ->
     executions (command_id c) (calls s1) =
       S (executions (command_id c) (calls s)) /\
     calls (snd (handle E R H c s1)) = calls s1 /\
     domain (snd (handle E R H c s1)) = domain s1 /\
     exists event,
       rejected_with R event "Duplicate command" s1 (handle E R H c s1) /\
       Emitter.event_reason_code event = Js.Str "DUPLICATE_COMMAND").
Proof.
  intros Hp. split.
  - intros t1 s1 Hs.
    assert (Hp1 : Store.isProcessed (command_id c) (world s1) = false).
    { pose proof (handle_start_store c s) as Hst. rewrite Hs in Hst.
      now rewrite (isProcessed_same _ _ _ Hst). }
    split; [exact Hp1|]. now apply handle_start_validates.
  - intros r1 s1 Hh Hsucc.
    pose proof (handle_path c s) as Hpath.
    assert (Hfail : forall e (s0 : State X),
              handleRejection E R c e s0 = (Js.Return r1, s1) ->
                                 False).
    { intros e s0 Heq.
      destruct (handleRejection_failure c e s0 r1) as [Hf _];
        [now rewrite Heq | congruence]. }
    rewrite Hh in Hpath. remember (Js.Return r1, s1) as out eqn:Hout.
    destruct Hpath as [Hd|e x1 _ Hv|u e x1 x2 _ Hv Hx|u eid x1 x2 _ Hv Hx];
      [congruence | now elim (Hfail _ _ eq_refl) | now elim (Hfail _ _ eq_refl) |].
    destruct (commit_absent c eid
                (set_domain x2 (log_call (CallExecute c)
                   (set_domain x1 (log_call (CallValidate c) s)))) Hp)
      as (w' & Hc & Hp' & _).
    rewrite Hc in Hout. injection Hout as _ <-. simpl.
    split; [rewrite <- !app_assoc; apply executions_three|].
    unfold handle. simpl. rewrite Hp'.
    destruct (rejectDuplicate_rejected c
                (set_world w' (log_call (CallMarkProcessed (command_id c))
                   (set_domain x2 (log_call (CallExecute c)
                      (set_domain x1 (log_call (CallValidate c) s)))))))
      as (event & Hrej & Hcode & Hd & Hcalls).
    split; [exact Hcalls|]. split; [exact Hd|]. eauto.
Qed.

End CommandHandling.

(* ===================================================================== *)
(** * The properties on the test handler                                   *)
(* ===================================================================== *)

Section Scenarios.
Import Runtime Handler Fixtures.

Lemma accepting_accepts : Emitter.gate_accepts_rejections accepting.
Proof.
  intros event Hty.
  rewrite (validateEvent_declared accepting event _ Hty); [reflexivity|].
  discriminate.
Qed.

Lemma duplicate_is_rejected_witness :
  let s1 := snd (handle env accepting TestCommandHandler
                   (command "cmd-duplicate") start) in
  exists id,
    fst (handle env accepting TestCommandHandler (command "cmd-duplicate") s1) =
    Js.Return {| success := false; event_id := None;
                 rejection_event_id := Some id;
                 reason := Some "Duplicate command" |}.
Proof.
  intros s1.
  destruct (duplicate_is_rejected env accepting TestCommandHandler
              (command "cmd-duplicate") s1)
    as (event & _ & _ & _ & _ & Hgate); [vm_compute; reflexivity|].
  exact (Hgate accepting_accepts).
Defined.

(** C1, on the code.  With the schema files the sources name, the second
    submission of a command that was processed does not return the
    failure result of a duplicate: [handle] ends as an error, no
    rejection event is written, and neither [validate] nor [execute] has
    been called again.  The event type stamped by the emitter,
    [command_rejected.v1], is looked up as [command_rejected.v1.v1.json],
    while the schema of [CommandRejected] is [command_rejected.v1.json]. *)
Lemma duplicate_may_throw :
  let s1 := snd (handle env documented TestCommandHandler
                   (command "cmd-100") start) in
  let out := handle env documented TestCommandHandler (command "cmd-100") s1 in
  Store.isProcessed "cmd-100" (world s1) = true /\
  Gate.schemaNameOf "CommandRejected" = "command_rejected.v1.json" /\
  fst out =
    Js.Throw (Js.Error
      "No schema registered for command_rejected.v1 (expected command_rejected.v1.v1.json)") /\
  console (world (snd out)) = console (world s1) /\
  calls (snd out) = calls s1.
Proof. vm_compute. repeat split. Qed.

Lemma processed_exactly_on_success_witness :
  Store.isProcessed "cmd-success"
    (world (snd (handle env accepting TestCommandHandler
                   (command "cmd-success") start))) = true /\
  Store.isProcessed "cmd-fail"
    (world (snd (handle env accepting TestCommandHandler
                   (command "cmd-fail") start))) = false.
Proof.
  split.
  - apply (proj1 (processed_exactly_on_success env accepting
                    TestCommandHandler (command "cmd-success") start eq_refl)
             {| success := true; event_id := Some "evt-success";
                rejection_event_id := None; reason := None |});
      vm_compute; reflexivity.
  - apply (proj1 (proj2 (processed_exactly_on_success env accepting
                    TestCommandHandler (command "cmd-fail") start eq_refl))
             (Js.Error "Business rule violation: Test failure")).
    right. exists tt, tt, tt. split; reflexivity.
Defined.


Lemma result_has_one_shape_witness :
  success_shape {| success := true; event_id := Some "evt-success";
                   rejection_event_id := None; reason := None |} \/
  failure_shape {| success := true; event_id := Some "evt-success";
                   rejection_event_id := None; reason := None |}.
Proof.
  refine (proj1 (result_has_one_shape env accepting TestCommandHandler
                   (command "cmd-success") start
                   (snd (handle env accepting TestCommandHandler
                           (command "cmd-success") start)) _ _)).
  vm_compute. reflexivity.
Defined.

Lemma classification_by_substring_witness :
  exists event,
    rejected_with accepting event "validation: Missing command_id" start
      (handle env accepting TestCommandHandler (command "") start) /\
    Emitter.event_reason_code event = Js.Str "INVALID_SCHEMA".
Proof.
  destruct (proj1 (classification_by_substring env accepting TestCommandHandler
                     (command "") start)
              (Js.Error "validation: Missing command_id"))
    as (event & Hrej & Hcode & _).
  - reflexivity.
  - left. exists tt. reflexivity.
  - reflexivity.
  - exists event. split; [exact Hrej | exact Hcode].
Defined.

Lemma duplicate_check_then_mark_witness :
  let s1 := snd (handle env accepting TestCommandHandler
                   (command "cmd-100") start) in
  executions "cmd-100" (calls s1) = 1%nat /\
  calls (snd (handle env accepting TestCommandHandler (command "cmd-100") s1))
    = calls s1.
Proof.
  intros s1.
  destruct (proj2 (duplicate_check_then_mark env accepting TestCommandHandler
                     (command "cmd-100") start eq_refl)
              {| success := true; event_id := Some "evt-success";
                 rejection_event_id := None; reason := None |} s1)
    as (Hex & Hcalls & _).
  - vm_compute. reflexivity.
  - reflexivity.
  - split; [exact Hex | exact Hcalls].
Defined.


(** C4, on the code.  Scenario D on the test handler, with a registry
    that lets the rejection events through: of two invocations in flight
    together for one [command_id], both pass the duplicate check and both
    execute; the first succeeds, and the second is answered from the
    failure of [markProcessed] with a [BUSINESS_RULE_VIOLATION] event,
    not as a duplicate. *)
Lemma concurrent_invocations_both_execute :
  let c := command "cmd-100" in
  let '(r1, r2, s') := handle_both env accepting TestCommandHandler c c start in
  Store.isProcessed "cmd-100" (world start) = false /\
  executions "cmd-100" (calls s') = 2%nat /\
  r1 = Js.Return {| success := true; event_id := Some "evt-success";
                    rejection_event_id := None; reason := None |} /\
  r2 = Js.Return {| success := false; event_id := None;
                    rejection_event_id := Some "uuid-0";
                    reason := Some "Command cmd-100 already processed" |} /\
  List.map Emitter.event_reason_code (console (world s')) =
    [Js.Str "BUSINESS_RULE_VIOLATION"].
Proof. vm_compute. repeat split. Qed.

End Scenarios.

(* ===================================================================== *)
(** * More on the emission gate                                           *)
(* ===================================================================== *)

Section GateMore.
Import Gate.

Variable R : Registry.

Lemma validateEvent_returns_type (event : Js.Val) :
  validateEvent R event = Js.Return tt ->
  exists t, Js.get "event_type" event = Js.Str t /\ t <> "".
Proof.
  unfold validateEvent. destruct event as [| |b|n|s|xs|fs]; simpl;
    rewrite ?orb_true_r; try discriminate.
  destruct (default Js.Undefined (Js.assoc "event_type" fs))
    as [| |b|n|t|xs|fs']; simpl; try discriminate.
  - destruct b; discriminate.
  - destruct (negb _); discriminate.
  - destruct (String.eqb_spec t "") as [->|Hne]; simpl; [discriminate|].
    intros _. now exists t.
Qed.

(** X1.  [validateEvent] returns normally exactly for an object with a
    non-empty string [event_type] whose schema is registered and reports
    no error. *)
Theorem validateEvent_returns_iff (event : Js.Val) :
  validateEvent R event = Js.Return tt <->
  exists t validate,
    Js.get "event_type" event = Js.Str t /\ t <> "" /\
    getSchema R (schemaNameOf t) = Some validate /\ validate event = [].
Proof.
  split.
  - intros Hv. destruct (validateEvent_returns_type event Hv) as (t & Ht & Hne).
    rewrite (validateEvent_declared R event t Ht Hne) in Hv.
    destruct (getSchema R (schemaNameOf t)) as [validate|] eqn:Hs;
      [|discriminate].
    destruct (validate event) eqn:Hok; [|discriminate].
    exists t, validate. repeat split; auto.
  - intros (t & validate & Ht & Hne & Hs & Hok).
    rewrite (validateEvent_declared R event t Ht Hne), Hs, Hok. reflexivity.
Qed.

(** X2.  What is not an object is refused as such and an object without
    a usable [event_type] (absent, null, false, 0 or the empty string) as
    lacking one, whatever the registry holds; a truthy [event_type] that
    is not a string ends in a [TypeError]. *)
Theorem validateEvent_malformed (event : Js.Val) :
  (Js.truthy event = false \/ Js.is_object event = false ->
   validateEvent R event = Js.Throw (Js.Error "Event must be an object")) /\
  (Js.truthy event = true -> Js.is_object event = true ->
   Js.truthy (Js.get "event_type" event) = false ->
   validateEvent R event = Js.Throw (Js.Error "Event missing event_type field")) /\
  (Js.truthy (Js.get "event_type" event) = true ->
   (forall t, Js.get "event_type" event <> Js.Str t) ->
   exists m, validateEvent R event = Js.Throw (Js.TypeError m)).
Proof.
  split; [|split].
  - intros [Ht|Ho]; unfold validateEvent; rewrite ?Ht, ?Ho; simpl;
      [reflexivity | now rewrite orb_true_r].
  - intros Ht Ho Hty. unfold validateEvent. now rewrite Ht, Ho, Hty.
  - intros Hty Hns. unfold validateEvent.
    destruct event; try discriminate Hty. simpl in *. rewrite Hty. simpl.
    destruct (default Js.Undefined (Js.assoc "event_type" fields));
      try (eexists; reflexivity).
    now elim (Hns s).
Qed.

End GateMore.

Lemma validateEvent_malformed_witness :
  Gate.validateEvent Fixtures.strict (Js.Str "PaymentSettled") =
    Js.Throw (Js.Error "Event must be an object") /\
  Gate.validateEvent Fixtures.strict (Js.Obj [("event_type", Js.Str "")]) =
    Js.Throw (Js.Error "Event missing event_type field") /\
  exists m,
    Gate.validateEvent Fixtures.strict
      (Js.Obj [("event_type", Js.Num {| Js.text := "7" |})]) =
    Js.Throw (Js.TypeError m).
Proof.
  split; [|split].
  - apply (proj1 (validateEvent_malformed Fixtures.strict (Js.Str "PaymentSettled"))).
    right. reflexivity.
  - apply (proj1 (proj2 (validateEvent_malformed Fixtures.strict
                           (Js.Obj [("event_type", Js.Str "")]))));
      reflexivity.
  - apply (proj2 (proj2 (validateEvent_malformed Fixtures.strict
                           (Js.Obj [("event_type",
                                     Js.Num {| Js.text := "7" |})]))));
      [reflexivity | intros t; discriminate].
Defined.

Section GateBatch.
Import Gate.

Variable R : Registry.

(** The state after [n] more events were handed to the publisher. *)
Lemma emitEvent_ok (event : Js.Val) (st : State) (p : EventPublisher) :
  validateEvent R event = Js.Return tt -> publisher st = Some p ->
  p event = None ->
  emitEvent R event st =
  (Js.Return tt, {| publisher := Some p; published := published st ++ [event] |}).
Proof. intros Hv Hp Hr. unfold emitEvent. now rewrite Hv, Hp, Hr. Qed.

Lemma emitEvent_return_inv (event : Js.Val) (st st' : State) (u : unit) :
  emitEvent R event st = (Js.Return u, st') ->
  validateEvent R event = Js.Return tt /\
  exists p, publisher st = Some p /\ p event = None /\
            st' = {| publisher := Some p;
                     published := published st ++ [event] |}.
Proof.
  unfold emitEvent.
  destruct (validateEvent R event) as [[]|e]; [|discriminate].
  destruct (publisher st) as [p|] eqn:Hp; [|discriminate].
  destruct (p event) as [e|] eqn:Hr; [discriminate|].
  intros [= _ <-]. split; [reflexivity|]. now exists p.
Qed.

Lemma emitEvent_throw_inv (event : Js.Val) (st st' : State) (e : Js.Err) :
  emitEvent R event st = (Js.Throw e, st') ->
  publisher st' = publisher st /\
  (published st' = published st \/
   (published st' = published st ++ [event] /\
    validateEvent R event = Js.Return tt)).
Proof.
  unfold emitEvent.
  destruct (validateEvent R event) as [[]|e0].
  - destruct (publisher st) as [p|] eqn:Hp.
    + destruct (p event); [|discriminate]. intros [= _ <-]. simpl. auto.
    + intros [= _ <-]. auto.
  - intros [= _ <-]. auto.
Qed.

(** X3.  [emitEvent] returns normally exactly when the event is valid,
    a publisher is configured and it resolves; the event has then been
    handed over once.  When the publisher rejects, its error is what
    [emitEvent] throws, the event having been handed over. *)
Theorem emitEvent_outcomes (event : Js.Val) (st st' : State) :
  (emitEvent R event st = (Js.Return tt, st') <->
   validateEvent R event = Js.Return tt /\
   exists p, publisher st = Some p /\ p event = None /\
             st' = {| publisher := Some p;
                      published := published st ++ [event] |}) /\
  (forall p e, validateEvent R event = Js.Return tt ->
     publisher st = Some p -> p event = Some e ->
     emitEvent R event st =
     (Js.Throw e, {| publisher := Some p;
                     published := published st ++ [event] |})).
Proof.
  split; [split|].
  - apply emitEvent_return_inv.
  - intros (Hv & p & Hp & Hr & ->). now apply emitEvent_ok.
  - intros p e Hv Hp Hr. unfold emitEvent. now rewrite Hv, Hp, Hr.
Qed.

(** X4.  Whatever the batch, [emitEvents] hands the publisher a prefix of
    it, in order, after what was handed over before; every event of that
    prefix passed [validateEvent]; the whole batch when it returns
    normally.  The configured publisher stays. *)
Theorem emitEvents_publishes_validated_prefix (events : list Js.Val) (st : State) :
  exists n,
    (n <= length events)%nat /\
    published (snd (emitEvents R events st)) = published st ++ firstn n events /\
    publisher (snd (emitEvents R events st)) = publisher st /\
    Forall (fun ev => validateEvent R ev = Js.Return tt) (firstn n events) /\
    (fst (emitEvents R events st) = Js.Return tt -> n = length events).
Proof.
  revert st. induction events as [|event rest IH]; intros st.
  - exists 0%nat. simpl. rewrite app_nil_r. repeat split; auto.
  - simpl. destruct (emitEvent R event st) as [[[]|e] st1] eqn:He.
    + destruct (emitEvent_return_inv _ _ _ _ He) as (Hv & p & Hp & _ & ->).
      destruct (IH {| publisher := Some p;
                      published := published st ++ [event] |})
        as (n & Hn & Hpub & Hsame & Hall & Hret).
      exists (S n). simpl in *. rewrite Hpub, <- app_assoc, Hsame, Hp.
      repeat split; auto; try lia.
    + destruct (emitEvent_throw_inv _ _ _ _ He) as (Hsame & [Hpub|[Hpub Hv]]).
      * exists 0%nat. simpl. rewrite app_nil_r.
        repeat split; auto; try lia. discriminate.
      * exists 1%nat. simpl. repeat split; auto; try lia. discriminate.
Qed.

Lemma emitEvents_app (pre rest : list Js.Val) (st : State) (p : EventPublisher) :
  publisher st = Some p ->
  Forall (fun ev => validateEvent R ev = Js.Return tt /\ p ev = None) pre ->
  emitEvents R (pre ++ rest) st =
  emitEvents R rest {| publisher := Some p; published := published st ++ pre |}.
Proof.
  revert st. induction pre as [|ev pre IH]; intros st Hp Hall.
  - simpl. rewrite app_nil_r. destruct st. simpl in *. now subst.
  - inversion Hall as [|? ? [Hv Hr] Hall']; subst. simpl.
    rewrite (emitEvent_ok ev st p Hv Hp Hr).
    rewrite IH by auto. simpl. now rewrite <- app_assoc.
Qed.

(** X5.  A batch stops at its first invalid event: the events before it
    have been handed to the publisher and stay so, the invalid one and
    those after it are not handed over, and the error is the invalid
    event's. *)
Theorem emitEvents_stops_at_first_invalid
    (pre post : list Js.Val) (bad : Js.Val) (st : State)
    (p : EventPublisher) (e : Js.Err) :
  publisher st = Some p ->
  Forall (fun ev => validateEvent R ev = Js.Return tt /\ p ev = None) pre ->
  validateEvent R bad = Js.Throw e ->
  emitEvents R (pre ++ bad :: post) st =
  (Js.Throw e, {| publisher := Some p; published := published st ++ pre |}).
Proof.
  intros Hp Hall Hbad. rewrite (emitEvents_app pre (bad :: post) st p Hp Hall).
  simpl. unfold emitEvent. now rewrite Hbad.
Qed.

(** X6.  A batch of valid events that the publisher all accepts is handed
    over whole, in order. *)
Theorem emitEvents_all_published (events : list Js.Val) (st : State)
    (p : EventPublisher) :
  publisher st = Some p ->
  Forall (fun ev => validateEvent R ev = Js.Return tt /\ p ev = None) events ->
  emitEvents R events st =
  (Js.Return tt, {| publisher := Some p; published := published st ++ events |}).
Proof.
  intros Hp Hall.
  rewrite <- (app_nil_r events) at 1.
  now rewrite (emitEvents_app events [] st p Hp Hall).
Qed.

End GateBatch.

Lemma emitEvent_outcomes_witness :
  let st := Gate.setPublisher Fixtures.always_publishes Gate.initial in
  let event := Fixtures.settled_event [("ledger_posting", Js.Obj [])] in
  Gate.emitEvent Fixtures.strict event st =
  (Js.Return tt, {| Gate.publisher := Some Fixtures.always_publishes;
                    Gate.published := [event] |}).
Proof.
  intros st event.
  apply (proj1 (emitEvent_outcomes Fixtures.strict event st _)).
  split; [reflexivity|]. exists Fixtures.always_publishes.
  repeat split.
Defined.

Lemma emitEvents_stops_at_first_invalid_witness :
  let st := Gate.setPublisher Fixtures.always_publishes Gate.initial in
  let good := Fixtures.settled_event [("ledger_posting", Js.Obj [])] in
  Gate.emitEvents Fixtures.strict [good; Fixtures.settled_event []; good] st =
  (Js.Throw (Js.Error
     "Schema violation for PaymentSettled: data/payload must have required property 'ledger_posting'"),
   {| Gate.publisher := Some Fixtures.always_publishes;
      Gate.published := [good] |}).
Proof.
  intros st good.
  apply (emitEvents_stops_at_first_invalid Fixtures.strict [good] [good]
           (Fixtures.settled_event []) st Fixtures.always_publishes).
  - reflexivity.
  - repeat constructor.
  - reflexivity.
Defined.

Lemma emitEvents_all_published_witness :
  let st := Gate.setPublisher Fixtures.always_publishes Gate.initial in
  let good := Fixtures.settled_event [("ledger_posting", Js.Obj [])] in
  Gate.emitEvents Fixtures.strict [good; good] st =
  (Js.Return tt, {| Gate.publisher := Some Fixtures.always_publishes;
                    Gate.published := [good; good] |}).
Proof.
  intros st good.
  apply (emitEvents_all_published Fixtures.strict [good; good] st
           Fixtures.always_publishes).
  - reflexivity.
  - repeat constructor.
Defined.

(* ===================================================================== *)
(** * More on the name transform                                          *)
(* ===================================================================== *)

Section NamesMore.
Import Gate Names.

Lemma upper_lower (c : ascii) :
  Js.is_upper c = true ->
  Js.upper_char (Js.lower_char c) = c /\ Js.lower_char c <> "_"%char.
Proof. destruct c as [[] [] [] [] [] [] [] []]; vm_compute; intuition congruence. Qed.

Lemma lower_char_plain (c : ascii) : Js.is_upper c = false -> Js.lower_char c = c.
Proof. unfold Js.lower_char. now intros ->. Qed.

Lemma lower_char_not_upper (c : ascii) : Js.is_upper (Js.lower_char c) = false.
Proof. destruct c as [[] [] [] [] [] [] [] []]; reflexivity. Qed.

Lemma upper_char_not_underscore (c : ascii) :
  Ascii.eqb c "_" = false -> Ascii.eqb (Js.upper_char c) "_" = false.
Proof. destruct c as [[] [] [] [] [] [] [] []]; vm_compute; congruence. Qed.

Lemma split_cons_ne (sep c : ascii) (r : string) :
  Ascii.eqb c sep = false ->
  Js.split sep (String c r) =
  match Js.split sep r with
  | w :: ws => String c w :: ws
  | [] => [String c EmptyString]
  end.
Proof. intros Hc. simpl. now rewrite Hc. Qed.

Lemma spread_cons (c : ascii) (r : string) :
  spread (String c r) =
  if Js.is_upper c then String "_" (String (Js.lower_char c) (spread r))
  else String c (spread r).
Proof.
  unfold spread. simpl. destruct (Js.is_upper c) eqn:Hu; simpl.
  - reflexivity.
  - now rewrite (lower_char_plain c Hu).
Qed.

Lemma all_chars_impl (p q : ascii -> bool) (s : string) :
  (forall c, p c = true -> q c = true) ->
  Js.all_chars p s = true -> Js.all_chars q s = true.
Proof.
  intros Hpq. induction s as [|c s IH]; [reflexivity|].
  cbn [Js.all_chars]. intros [Hc Hs]%andb_true_iff.
  now rewrite (Hpq c Hc), (IH Hs).
Qed.

Lemma pascal_rest_no_underscore (r : string) :
  Js.all_chars (fun x => Js.is_ascii x && negb (Ascii.eqb x "_")) r = true ->
  no_underscore r = true.
Proof.
  apply all_chars_impl. now intros c [_ Hc]%andb_true_iff.
Qed.

(** Splitting a spread name at the underscores gives back its words,
    each with its capital lowered. *)
Lemma split_spread (r : string) :
  no_underscore r = true ->
  forall c0, Ascii.eqb c0 "_" = false ->
    exists w' ws,
      Js.split "_" (String c0 (spread r)) = String c0 w' :: ws /\
      w' +:+ Js.join (List.map capitalize ws) = r.
Proof.
  unfold no_underscore. induction r as [|c r IH]; intros Hr c0 Hc0.
  - exists "", []. split; [|reflexivity]. simpl. now rewrite Hc0.
  - cbn [Js.all_chars] in Hr. apply andb_true_iff in Hr as [Hc Hr].
    apply negb_true_iff in Hc.
    rewrite spread_cons, (split_cons_ne "_" c0) by exact Hc0.
    destruct (Js.is_upper c) eqn:Hu.
    + destruct (upper_lower c Hu) as [Hul Hne].
      assert (Hl : Ascii.eqb (Js.lower_char c) "_" = false)
        by now apply Ascii.eqb_neq.
      destruct (IH Hr (Js.lower_char c) Hl) as (w1 & ws1 & Hs & Hj).
      exists "", (String (Js.lower_char c) w1 :: ws1). split.
      * change (Js.split "_" (String "_" (String (Js.lower_char c) (spread r))))
          with ("" :: Js.split "_" (String (Js.lower_char c) (spread r))).
        now rewrite Hs.
      * cbn [List.map capitalize]. rewrite join_cons, Hul, append_nil_l,
          append_cons. now rewrite Hj.
    + destruct (IH Hr c Hc) as (w1 & ws1 & Hs & Hj).
      exists (String c w1), ws1. rewrite Hs. split; [reflexivity|].
      rewrite append_cons. now rewrite Hj.
Qed.

(** X7.  On an event type of ASCII characters that starts with a capital
    letter and holds no underscore, snake_case followed by PascalCase is
    the identity; so two such event types never share a schema name. *)
Theorem pascal_snake_pascal (t : string) :
  is_pascal_case t = true ->
  toPascalCase (toSnakeCase t) = t /\
  (forall t', is_pascal_case t' = true ->
     toSnakeCase t' = toSnakeCase t -> t' = t).
Proof.
  assert (Hrt : forall s, is_pascal_case s = true ->
                          toPascalCase (toSnakeCase s) = s).
  { intros [|c r]; [discriminate|]. cbn [is_pascal_case].
    intros [Hu Hr]%andb_true_iff.
    destruct (upper_lower c Hu) as [Hul Hne].
    assert (Hl : Ascii.eqb (Js.lower_char c) "_" = false)
      by now apply Ascii.eqb_neq.
    destruct (split_spread r (pascal_rest_no_underscore r Hr)
                (Js.lower_char c) Hl) as (w' & ws & Hs & Hj).
    unfold toSnakeCase, toPascalCase. rewrite spread_cons, Hu.
    cbn [strip_leading_underscore]. rewrite Hs.
    cbn [List.map capitalize]. rewrite join_cons, Hul, append_cons.
    now rewrite Hj. }
  intros Ht. split; [now apply Hrt|].
  intros t' Ht' Heq. rewrite <- (Hrt t' Ht'), Heq. now apply Hrt.
Qed.

Lemma pascal_snake_pascal_witness :
  toPascalCase (toSnakeCase "NPPPaymentSettled") = "NPPPaymentSettled".
Proof.
  apply (proj1 (pascal_snake_pascal "NPPPaymentSettled" eq_refl)).
Defined.

Lemma all_chars_append (p : ascii -> bool) (a b : string) :
  Js.all_chars p (a +:+ b) = (Js.all_chars p a && Js.all_chars p b)%bool.
Proof.
  induction a as [|c a IH]; [reflexivity|].
  rewrite append_cons. cbn [Js.all_chars]. now rewrite IH, andb_assoc.
Qed.

Lemma spread_no_capital (s : string) : no_capital (spread s) = true.
Proof.
  unfold no_capital. induction s as [|c s IH]; [reflexivity|].
  rewrite spread_cons. destruct (Js.is_upper c) eqn:Hu; cbn [Js.all_chars].
  - now rewrite lower_char_not_upper, IH.
  - now rewrite Hu, IH.
Qed.

Lemma split_words_no_underscore (s : string) :
  forallb no_underscore (Js.split "_" s) = true.
Proof.
  unfold no_underscore. induction s as [|c s IH]; [reflexivity|]. simpl.
  destruct (Ascii.eqb c "_") eqn:Hc; [exact IH|].
  destruct (Js.split "_" s) as [|w ws]; simpl in *; now rewrite Hc.
Qed.

Lemma capitalize_no_underscore (w : string) :
  no_underscore w = true -> no_underscore (capitalize w) = true.
Proof.
  unfold no_underscore. destruct w as [|c r]; [reflexivity|]. simpl.
  intros [Hc Hr]%andb_true_iff. apply negb_true_iff in Hc.
  now rewrite (upper_char_not_underscore c Hc), Hr.
Qed.

(** X8.  A name produced by [toSnakeCase] holds no capital letter, and
    one produced by [toPascalCase] holds no underscore, whatever the
    input. *)
Theorem converted_names_shape (s : string) :
  no_capital (toSnakeCase s) = true /\ no_underscore (toPascalCase s) = true.
Proof.
  split.
  - unfold toSnakeCase. pose proof (spread_no_capital s) as Hs.
    destruct (spread s) as [|c r]; [reflexivity|].
    unfold strip_leading_underscore, no_capital in *. cbn [Js.all_chars] in Hs.
    apply andb_true_iff in Hs as [Hc Hr].
    destruct (Ascii.eqb_spec c "_") as [->|Hne]; [exact Hr|].
    assert (Hkeep : Js.all_chars (fun x => negb (Js.is_upper x)) (String c r) = true)
      by (cbn [Js.all_chars]; now rewrite Hc, Hr).
    destruct c as [[] [] [] [] [] [] [] []]; try exact Hkeep; congruence.
  - unfold toPascalCase. pose proof (split_words_no_underscore s) as Hw.
    induction (Js.split "_" s) as [|w ws IH]; [reflexivity|].
    simpl in Hw. apply andb_true_iff in Hw as [Hw Hws].
    cbn [List.map]. rewrite join_cons. unfold no_underscore in *.
    rewrite all_chars_append. fold (no_underscore (capitalize w)).
    rewrite (capitalize_no_underscore w Hw). now apply IH.
Qed.






End NamesMore.

(* ===================================================================== *)
(** * More on the idempotency store                                       *)
(* ===================================================================== *)

Section StoreMore.
Import Runtime Usage.

Variable E : Env.

Lemma markProcessed_unfold_absent (id ty : string) (rid : option string)
    (w : World) :
  Store.isProcessed id w = false ->
  Store.markProcessed E id ty rid w =
  (Js.Return tt,
   set_processedCommands
     (<[id := {| command_id := id; command_type := ty;
                 processed_at := date_at E (clock_reads w);
                 result_event_id := rid |}]> (processedCommands w))
     (snd (newDate E w))).
Proof. intros Hp. unfold Store.markProcessed. now rewrite Hp. Qed.

Lemma markProcessed_unfold_present (id ty : string) (rid : option string)
    (w : World) :
  Store.isProcessed id w = true ->
  snd (Store.markProcessed E id ty rid w) = w.
Proof. intros Hp. unfold Store.markProcessed. now rewrite Hp. Qed.

Lemma mark_absent_lookup (id ty : string) (rid : option string) (w : World) :
  Store.isProcessed id w = false ->
  Store.getRecord id (snd (Store.markProcessed E id ty rid w)) =
    Some {| command_id := id; command_type := ty;
            processed_at := date_at E (clock_reads w);
            result_event_id := rid |} /\
  (forall id', id' <> id ->
     Store.getRecord id' (snd (Store.markProcessed E id ty rid w)) =
     Store.getRecord id' w).
Proof.
  intros Hp. rewrite (markProcessed_unfold_absent id ty rid w Hp).
  unfold Store.getRecord. simpl. split; [apply lookup_insert_eq|].
  intros id' Hne. now apply lookup_insert_ne.
Qed.

(** X10.  Marking an absent id succeeds and stores a record that
    [getRecord] gives back with the id, type and event id passed in and
    the clock reading of the call; the id is processed from then on, the
    count goes up by one, and the records of all other ids and the
    console are as before. *)
Theorem markProcessed_records (id ty : string) (rid : option string) (w : World) :
  Store.isProcessed id w = false ->
  fst (Store.markProcessed E id ty rid w) = Js.Return tt /\
  Store.getRecord id (snd (Store.markProcessed E id ty rid w)) =
    Some {| command_id := id; command_type := ty;
            processed_at := date_at E (clock_reads w);
            result_event_id := rid |} /\
  Store.isProcessed id (snd (Store.markProcessed E id ty rid w)) = true /\
  Store.count (snd (Store.markProcessed E id ty rid w)) = S (Store.count w) /\
  (forall id', id' <> id ->
     Store.getRecord id' (snd (Store.markProcessed E id ty rid w)) =
     Store.getRecord id' w) /\
  console (snd (Store.markProcessed E id ty rid w)) = console w.
Proof.
  intros Hp. rewrite (markProcessed_unfold_absent id ty rid w Hp).
  unfold Store.getRecord, Store.isProcessed, Store.count. simpl.
  split; [reflexivity|]. split; [apply lookup_insert_eq|].
  split; [apply bool_decide_eq_true; rewrite lookup_insert_eq; eauto|].
  split; [apply map_size_insert_None; now apply isProcessed_none|].
  split; [|reflexivity].
  intros id' Hne. now apply lookup_insert_ne.
Qed.

(** X11.  [clear] empties the store and nothing else: the count is 0, no
    id is processed or has a record, the console is untouched, and any
    id, also one processed before, can be marked again. *)
Theorem clear_forgets (w : World) :
  Store.count (Store.clear w) = 0%nat /\
  (forall id, Store.isProcessed id (Store.clear w) = false /\
              Store.getRecord id (Store.clear w) = None) /\
  console (Store.clear w) = console w /\
  (forall id ty rid,
     fst (Store.markProcessed E id ty rid (Store.clear w)) = Js.Return tt /\
     Store.isProcessed id
       (snd (Store.markProcessed E id ty rid (Store.clear w))) = true).
Proof.
  assert (Hnone : forall id, Store.isProcessed id (Store.clear w) = false).
  { intros id. apply isProcessed_none. apply lookup_empty. }
  split; [apply map_size_empty|]. split; [|split; [reflexivity|]].
  - intros id. split; [apply Hnone | apply lookup_empty].
  - intros id ty rid.
    destruct (markProcessed_absent E id ty rid (Store.clear w) (Hnone id))
      as (w' & -> & Hp & _). auto.
Qed.

Lemma mark_keeps_record (id id' ty : string) (rid : option string)
    (w : World) (r : CommandRecord) :
  Store.getRecord id w = Some r ->
  Store.getRecord id (snd (Store.markProcessed E id' ty rid w)) = Some r.
Proof.
  intros Hr. destruct (Store.isProcessed id' w) eqn:Hp.
  - now rewrite markProcessed_unfold_present.
  - rewrite (markProcessed_unfold_absent id' ty rid w Hp).
    unfold Store.getRecord in *. simpl. rewrite lookup_insert_ne; [exact Hr|].
    intros ->. apply isProcessed_none in Hp. congruence.
Qed.

Lemma mark_count (id ty : string) (rid : option string) (w : World) :
  (Store.count w <= Store.count (snd (Store.markProcessed E id ty rid w)))%nat.
Proof.
  destruct (Store.isProcessed id w) eqn:Hp.
  - rewrite markProcessed_unfold_present by exact Hp. lia.
  - destruct (markProcessed_absent E id ty rid w Hp) as (w' & -> & _ & Hc & _).
    simpl. lia.
Qed.

(** X12.  Through any series of [markProcessed] calls, successful or
    not, a record once stored is never replaced or removed and the count
    never goes down. *)
Theorem records_are_never_overwritten (cs : list StoreCall) (w : World) :
  forallb is_mark cs = true ->
  (forall id r, Store.getRecord id w = Some r ->
                Store.getRecord id (run_calls E cs w) = Some r) /\
  (Store.count w <= Store.count (run_calls E cs w))%nat.
Proof.
  revert w. induction cs as [|c cs IH]; intros w Hm; [split; auto|].
  simpl in Hm. apply andb_true_iff in Hm as [Hc Hm].
  destruct c as [id' ty rid|]; [|discriminate]. simpl.
  destruct (IH (snd (Store.markProcessed E id' ty rid w)) Hm) as [Hkeep Hcount].
  split.
  - intros id r Hr. apply Hkeep. now apply mark_keeps_record.
  - pose proof (mark_count id' ty rid w) as Hone.
    exact (Nat.le_trans _ _ _ Hone Hcount).
Qed.

Lemma mark_processed_iff (id id' ty : string) (rid : option string) (w : World) :
  Store.isProcessed id (snd (Store.markProcessed E id' ty rid w)) = true <->
  Store.isProcessed id w = true \/ id = id'.
Proof.
  destruct (Store.isProcessed id' w) eqn:Hp.
  - rewrite markProcessed_unfold_present by exact Hp.
    split; [auto|]. intros [H| ->]; auto.
  - rewrite (markProcessed_unfold_absent id' ty rid w Hp).
    rewrite !isProcessed_lookup. simpl.
    destruct (decide (id = id')) as [->|Hne].
    + rewrite lookup_insert_eq. split; eauto.
    + rewrite lookup_insert_ne by congruence. split; [auto|].
      intros [H|H]; [exact H | congruence].
Qed.

Lemma run_marks_dom (cs : list StoreCall) (w : World) :
  forallb is_mark cs = true ->
  dom (processedCommands (run_calls E cs w)) =
  dom (processedCommands w) ∪ (list_to_set (marked_ids cs) : gset string).
Proof.
  revert w. induction cs as [|c cs IH]; intros w Hm.
  - simpl. set_solver.
  - simpl in Hm. apply andb_true_iff in Hm as [Hc Hm].
    destruct c as [id ty rid|]; [|discriminate].
    change (run_calls E (Mark id ty rid :: cs) w)
      with (run_calls E cs (snd (Store.markProcessed E id ty rid w))).
    rewrite (IH _ Hm). simpl.
    destruct (Store.isProcessed id w) eqn:Hp.
    + rewrite markProcessed_unfold_present by exact Hp.
      apply isProcessed_lookup, elem_of_dom in Hp. set_solver.
    + rewrite (markProcessed_unfold_absent id ty rid w Hp). simpl.
      rewrite dom_insert_L. set_solver.
Qed.

(** X13.  After a series of [markProcessed] calls an id is processed
    exactly when it was before or one of the calls named it; starting
    from an empty store, [count] is the number of distinct ids named. *)
Theorem marks_processed_exactly (cs : list StoreCall) (w : World) :
  forallb is_mark cs = true ->
  (forall id, Store.isProcessed id (run_calls E cs w) = true <->
              Store.isProcessed id w = true \/ In id (marked_ids cs)) /\
  (Store.count w = 0%nat ->
   Store.count (run_calls E cs w) = length (remove_dups (marked_ids cs))).
Proof.
  intros Hm. pose proof (run_marks_dom cs w Hm) as Hdom. split.
  - intros id. rewrite !isProcessed_lookup, <- !elem_of_dom, Hdom.
    rewrite elem_of_union, elem_of_list_to_set, list_elem_of_In. reflexivity.
  - unfold Store.count. intros Hz. apply map_size_empty_iff in Hz.
    rewrite <- (size_dom (D := gset string)), Hdom, Hz, dom_empty_L,
      union_empty_l_L.
    rewrite <- (size_list_to_set (C := gset string) (remove_dups (marked_ids cs)))
      by apply NoDup_remove_dups.
    f_equal. apply set_eq. intros x.
    now rewrite !elem_of_list_to_set, elem_of_remove_dups.
Qed.

Lemma mark_well_keyed (id ty : string) (rid : option string) (w : World) :
  well_keyed w -> well_keyed (snd (Store.markProcessed E id ty rid w)).
Proof.
  intros Hw. destruct (Store.isProcessed id w) eqn:Hp.
  - now rewrite markProcessed_unfold_present.
  - rewrite (markProcessed_unfold_absent id ty rid w Hp).
    intros k r. unfold Store.getRecord. simpl.
    destruct (decide (id = k)) as [->|Hne].
    + rewrite lookup_insert_eq. now intros [= <-].
    + rewrite lookup_insert_ne by exact Hne. apply Hw.
Qed.

(** X14.  In a store that has only been written through [markProcessed]
    and [clear], every record sits under its own [command_id]: the new
    store is so, and every call keeps it so. *)
Theorem records_keyed_by_command_id (cs : list StoreCall) (w : World) :
  well_keyed Runtime.initial /\
  (well_keyed w -> well_keyed (run_calls E cs w)).
Proof.
  split.
  - intros k r. unfold Store.getRecord. simpl. now rewrite lookup_empty.
  - revert w. induction cs as [|c cs IH]; intros w Hw; [exact Hw|].
    simpl. apply IH. destruct c as [id ty rid|]; simpl.
    + now apply mark_well_keyed.
    + intros k r. unfold Store.getRecord. simpl. now rewrite lookup_empty.
Qed.

End StoreMore.

Lemma markProcessed_records_witness :
  Store.getRecord "cmd-002"
    (snd (Store.markProcessed Fixtures.env "cmd-002" "InitiatePayment"
            (Some "evt-001") Runtime.initial)) =
  Some {| Runtime.command_id := "cmd-002";
          Runtime.command_type := "InitiatePayment";
          Runtime.processed_at := 1734429600000;
          Runtime.result_event_id := Some "evt-001" |}.
Proof.
  apply (proj1 (proj2 (markProcessed_records Fixtures.env "cmd-002"
                         "InitiatePayment" (Some "evt-001") Runtime.initial
                         eq_refl))).
Defined.

Lemma records_are_never_overwritten_witness :
  let cs := [Usage.Mark "cmd-003" "InitiatePayment" None;
             Usage.Mark "cmd-003" "RetryPayment" (Some "evt-9")] in
  Store.getRecord "cmd-003" (Usage.run_calls Fixtures.env cs Runtime.initial) =
  Store.getRecord "cmd-003"
    (Usage.run_calls Fixtures.env [Usage.Mark "cmd-003" "InitiatePayment" None]
       Runtime.initial).
Proof.
  intros cs.
  apply (proj1 (records_are_never_overwritten Fixtures.env
                  [Usage.Mark "cmd-003" "RetryPayment" (Some "evt-9")]
                  (Usage.run_calls Fixtures.env
                     [Usage.Mark "cmd-003" "InitiatePayment" None]
                     Runtime.initial) eq_refl)).
  vm_compute. reflexivity.
Defined.

Lemma marks_processed_exactly_witness :
  Store.count
    (Usage.run_calls Fixtures.env
       [Usage.Mark "cmd-004" "InitiatePayment" None;
        Usage.Mark "cmd-005" "InitiatePayment" None;
        Usage.Mark "cmd-004" "InitiatePayment" None] Runtime.initial) = 2%nat.
Proof.
  apply (proj2 (marks_processed_exactly Fixtures.env
                  [Usage.Mark "cmd-004" "InitiatePayment" None;
                   Usage.Mark "cmd-005" "InitiatePayment" None;
                   Usage.Mark "cmd-004" "InitiatePayment" None]
                  Runtime.initial eq_refl)).
  reflexivity.
Defined.

Lemma records_keyed_by_command_id_witness :
  Usage.well_keyed
    (Usage.run_calls Fixtures.env
       [Usage.Mark "cmd-006" "InitiatePayment" None; Usage.Clear;
        Usage.Mark "cmd-007" "InitiatePayment" None] Runtime.initial).
Proof.
  apply (proj2 (records_keyed_by_command_id Fixtures.env
                  [Usage.Mark "cmd-006" "InitiatePayment" None; Usage.Clear;
                   Usage.Mark "cmd-007" "InitiatePayment" None]
                  Runtime.initial)).
  apply (proj1 (records_keyed_by_command_id Fixtures.env [] Runtime.initial)).
Defined.

(* ===================================================================== *)
(** * More on the rejection emitter                                       *)
(* ===================================================================== *)

Section EmitterMore.
Import Runtime Emitter.

Variable E : Env.
Variable R : Gate.Registry.

(** The event a helper builds, with the payload it passes to [emit]. *)
Lemma call_event (h : Helper) (cid cty : string) (corr : option string)
    (w : World) :
  exists payload,
    outcome_for R
      (build_event payload (uuidv4_at E (uuids_drawn w))
         (toISOString E (date_at E (S (clock_reads w)))))
      w (call E R h cid cty corr w) /\
    command_id payload = cid /\ command_type payload = cty /\
    correlation_id payload = corr /\ reason_code payload = reason_of h /\
    match h with
    | DuplicateCommand =>
        metadata payload = None /\
        reason_message payload =
          "Command " +:+ cid +:+ " has already been processed"
    | InvalidSchema v =>
        metadata payload = Some [("validation_error", Js.Str v)] /\
        reason_message payload = "Command validation failed: " +:+ v
    | BusinessRuleViolation v =>
        metadata payload = Some [("rule_violation", Js.Str v)] /\
        reason_message payload = "Business rule violation: " +:+ v
    | InsufficientFunds a b =>
        metadata payload = Some [("required_amount", Js.Num a);
                                 ("available_amount", Js.Num b)] /\
        reason_message payload =
          "Insufficient funds: required " +:+ Js.text a
          +:+ ", available " +:+ Js.text b
    | InvalidStateTransition a b =>
        metadata payload = Some [("current_state", Js.Str a);
                                 ("attempted_transition", Js.Str b)] /\
        reason_message payload =
          "Invalid state transition: " +:+ a +:+ " -> " +:+ b
    end.
Proof.
  destruct h; (eexists; split; [refine (helper_outcome E R _ _)|]);
    repeat split.
Qed.

(** X15.  A correlation id the caller supplies is kept verbatim on the
    event, unless it is the empty string, which is taken for a missing
    one and replaced by the event's own id. *)
Theorem correlation_id_kept_unless_empty (h : Helper) (cid cty : string)
    (corr : option string) (w : World) :
  exists event,
    outcome_for R event w (call E R h cid cty corr w) /\
    (forall c, corr = Some c -> c <> "" ->
               Js.get "correlation_id" event = Js.Str c) /\
    (corr = Some "" ->
     Js.get "correlation_id" event = Js.get "event_id" event).
Proof.
  destruct (call_event h cid cty corr w)
    as (payload & Hout & _ & _ & Hcorr & _).
  eexists. split; [exact Hout|]. simpl. rewrite Hcorr. split.
  - intros c -> Hne. simpl. apply String.eqb_neq in Hne. now rewrite Hne.
  - now intros ->.
Qed.

(** X16.  Whichever helper is called, the event it builds is a
    [command_rejected.v1] event of schema version v1 whose payload carries
    the command id and type passed in, the helper's reason code, a
    message made from the helper's arguments (a number as a template
    literal prints it) and a metadata object holding those arguments; for
    a duplicate the metadata object is empty.  Its [occurred_at] is the
    clock reading after the one taken for [rejected_at]. *)
Theorem rejection_event_contents (h : Helper) (cid cty : string)
    (corr : option string) (w : World) :
  exists event,
    outcome_for R event w (call E R h cid cty corr w) /\
    Js.get "schema_version" event = Js.Str "v1" /\
    Js.get "occurred_at" event =
      Js.Str (toISOString E (date_at E (S (clock_reads w)))) /\
    Js.get "command_id" (Js.get "payload" event) = Js.Str cid /\
    Js.get "command_type" (Js.get "payload" event) = Js.Str cty /\
    event_reason_code event = Js.Str (reason_string (reason_of h)) /\
    match h with
    | DuplicateCommand =>
        Js.get "metadata" (Js.get "payload" event) = Js.Obj [] /\
        Js.get "reason_message" (Js.get "payload" event) =
          Js.Str ("Command " +:+ cid +:+ " has already been processed")
    | InvalidSchema v =>
        event_metadata "validation_error" event = Js.Str v /\
        Js.get "reason_message" (Js.get "payload" event) =
          Js.Str ("Command validation failed: " +:+ v)
    | BusinessRuleViolation v =>
        event_metadata "rule_violation" event = Js.Str v /\
        Js.get "reason_message" (Js.get "payload" event) =
          Js.Str ("Business rule violation: " +:+ v)
    | InsufficientFunds a b =>
        (event_metadata "required_amount" event = Js.Num a /\
         event_metadata "available_amount" event = Js.Num b) /\
        Js.get "reason_message" (Js.get "payload" event) =
          Js.Str ("Insufficient funds: required " +:+ Js.text a
                  +:+ ", available " +:+ Js.text b)
    | InvalidStateTransition a b =>
        (event_metadata "current_state" event = Js.Str a /\
         event_metadata "attempted_transition" event = Js.Str b) /\
        Js.get "reason_message" (Js.get "payload" event) =
          Js.Str ("Invalid state transition: " +:+ a +:+ " -> " +:+ b)
    end.
Proof.
  destruct (call_event h cid cty corr w)
    as (payload & Hout & Hcid & Hcty & _ & Hcode & Hh).
  eexists. split; [exact Hout|]. unfold event_reason_code, event_metadata.
  simpl. rewrite Hcid, Hcty, Hcode. repeat (split; [reflexivity|]).
  destruct h; destruct Hh as [-> ->]; repeat split.
Qed.

End EmitterMore.

Lemma correlation_id_kept_unless_empty_witness :
  exists event,
    Emitter.outcome_for Fixtures.accepting event Runtime.initial
      (Emitter.emitDuplicateCommand Fixtures.env Fixtures.accepting
         "cmd-001" "InitiatePayment" (Some "corr-001") Runtime.initial) /\
    Js.get "correlation_id" event = Js.Str "corr-001".
Proof.
  destruct (correlation_id_kept_unless_empty Fixtures.env Fixtures.accepting
              Emitter.DuplicateCommand "cmd-001" "InitiatePayment"
              (Some "corr-001") Runtime.initial)
    as (event & Hout & Hkeep & _).
  exists event. split; [exact Hout|].
  apply (Hkeep "corr-001"); [reflexivity | discriminate].
Defined.

(* ===================================================================== *)
(** * More on the command handler                                         *)
(* ===================================================================== *)

Section HandlerMore.
Import Runtime Handler Usage.

Context {X : Type}.
Variable E : Env.
Variable R : Gate.Registry.

Lemma commit_absent_world (c : Command) (eid : string) (s : State X) :
  Store.isProcessed (command_id c) (world s) = false ->
  commit E R c eid s =
  (Js.Return {| success := true; event_id := Some eid;
                rejection_event_id := None; reason := None |},
   set_world
     (snd (Store.markProcessed E (command_id c) (command_type c) (Some eid)
             (world s)))
     (log_call (CallMarkProcessed (command_id c)) s)).
Proof.
  intros Hp. unfold commit. simpl.
  rewrite (markProcessed_unfold_absent E _ _ _ _ Hp). reflexivity.
Qed.

(** What each way through [handle] does to the store. *)
Lemma handle_store (H : Impl X) (c : Command) (s : State X) :
  processedCommands (world (snd (handle E R H c s))) = processedCommands (world s) \/
  (Store.isProcessed (command_id c) (world s) = false /\
   exists eid,
     fst (handle E R H c s) =
       Js.Return {| success := true; event_id := Some eid;
                    rejection_event_id := None; reason := None |} /\
     world (snd (handle E R H c s)) =
       snd (Store.markProcessed E (command_id c) (command_type c) (Some eid)
              (world s))).
Proof.
  pose proof (handle_path E R H c s) as Hpath.
  remember (handle E R H c s) as out eqn:Hout in *.
  destruct Hpath as [Hd|e x1 Hp Hv|u e x1 x2 Hp Hv Hx|u eid x1 x2 Hp Hv Hx].
  - left. now destruct (rejectDuplicate_rejected E R c s)
      as (event & (_ & Hs & _) & _).
  - left. now destruct (handleRejection_frame E R c e
                          (set_domain x1 (log_call (CallValidate c) s)))
      as (Hs & _).
  - left. now destruct (handleRejection_frame E R c e
                          (set_domain x2 (log_call (CallExecute c)
                             (set_domain x1 (log_call (CallValidate c) s)))))
      as (Hs & _).
  - right. split; [exact Hp|]. exists eid.
    rewrite commit_absent_world by exact Hp. split; reflexivity.
Qed.

(** X17.  A call of [handle] leaves the record of every other command id
    as it was and never replaces or removes a record that exists: the
    only write it can make is a new record for its own command id. *)
Theorem handle_writes_only_its_own_record (H : Impl X) (c : Command)
    (s : State X) :
  (forall id, id <> command_id c ->
     Store.getRecord id (world (snd (handle E R H c s))) =
     Store.getRecord id (world s)) /\
  (forall id r, Store.getRecord id (world s) = Some r ->
     Store.getRecord id (world (snd (handle E R H c s))) = Some r).
Proof.
  destruct (handle_store H c s) as [Hsame|(Hp & eid & _ & Hw)].
  - unfold Store.getRecord. rewrite Hsame. auto.
  - rewrite Hw. split.
    + intros id Hne.
      now apply (mark_absent_lookup E (command_id c) (command_type c)
                   (Some eid) (world s) Hp).
    + intros id r Hr. now apply mark_keeps_record.
Qed.

(** X18.  When [handle] returns success, the store holds for the command
    id a record with the command's type and, as [result_event_id], the
    event id the result carries. *)
Theorem success_records_the_event (H : Impl X) (c : Command) (s : State X)
    (r : CommandResult) :
  fst (handle E R H c s) = Js.Return r -> success r = true ->
  exists record,
    Store.getRecord (command_id c) (world (snd (handle E R H c s))) = Some record /\
    Runtime.command_id record = command_id c /\
    Runtime.command_type record = command_type c /\
    result_event_id record = event_id r /\
    is_Some (event_id r).
Proof.
  intros Hret Hs.
  destruct (handle_store H c s) as [Hsame|(Hp & eid & Hres & Hw)].
  - exfalso. pose proof (handle_path E R H c s) as Hpath.
    remember (handle E R H c s) as out eqn:Hout in *.
    destruct Hpath as [Hd|e x1 Hp Hv|u e x1 x2 Hp Hv Hx|u eid x1 x2 Hp Hv Hx].
    + destruct (rejectDuplicate_rejected E R c s) as (event & (_ & _ & Hrej) & _).
      destruct (Gate.validateEvent R event) as [[]|e'].
      * destruct Hrej as (id & _ & Hf & _). rewrite Hf in Hret.
        injection Hret as <-. discriminate.
      * destruct Hrej as [Hf _]. congruence.
    + destruct (handleRejection_failure E R c e _ r Hret). congruence.
    + destruct (handleRejection_failure E R c e _ r Hret). congruence.
    + rewrite commit_absent_world in Hsame by exact Hp. simpl in Hsame.
      destruct (markProcessed_absent E (command_id c) (command_type c)
                  (Some eid) (world s) Hp) as (w' & Hm & Hp' & _).
      rewrite Hm in Hsame. simpl in Hsame.
      rewrite (isProcessed_same _ _ _ Hsame) in Hp'. congruence.
  - rewrite Hres in Hret. injection Hret as <-. rewrite Hw.
    destruct (mark_absent_lookup E (command_id c) (command_type c)
                (Some eid) (world s) Hp) as (Hrec & _).
    eexists. split; [exact Hrec|]. simpl. eauto.
Qed.

(** X19.  When [validate] throws, [execute] and [markProcessed] are not
    called and the collaborator is left in the state [validate] left it
    in; when [execute] throws, [markProcessed] is not called and what
    [execute] did to the collaborator before throwing stays done.  The
    store is unchanged in both cases. *)
Theorem failure_stops_the_pipeline (H : Impl X) (c : Command) (s : State X) :
  Store.isProcessed (command_id c) (world s) = false ->
  (forall e x1, validate H c (domain s) = (Js.Throw e, x1) ->
     calls (snd (handle E R H c s)) = calls s ++ [CallValidate c] /\
     domain (snd (handle E R H c s)) = x1 /\
     processedCommands (world (snd (handle E R H c s))) =
       processedCommands (world s)) /\
  (forall u e x1 x2,
     validate H c (domain s) = (Js.Return u, x1) ->
     execute H c x1 = (Js.Throw e, x2) ->
     calls (snd (handle E R H c s)) = calls s ++ [CallValidate c; CallExecute c] /\
     domain (snd (handle E R H c s)) = x2 /\
     processedCommands (world (snd (handle E R H c s))) =
       processedCommands (world s)).
Proof.
  intros Hp. split.
  - intros e x1 Hv. unfold handle. rewrite Hp. simpl. rewrite Hv.
    destruct (handleRejection_frame E R c e
                (set_domain x1 (log_call (CallValidate c) s)))
      as (Hs & Hd & Hc).
    now rewrite Hc, Hd, Hs.
  - intros u e x1 x2 Hv Hx. unfold handle. rewrite Hp. simpl.
    rewrite Hv. simpl. rewrite Hx.
    destruct (handleRejection_frame E R c e
                (set_domain x2 (log_call (CallExecute c)
                   (set_domain x1 (log_call (CallValidate c) s)))))
      as (Hs & Hd & Hc).
    rewrite Hc, Hd, Hs. simpl. now rewrite <- app_assoc.
Qed.

Lemma handle_keeps_record (H : Impl X) (c : Command) (s : State X)
    (id : string) (r : CommandRecord) :
  Store.getRecord id (world s) = Some r ->
  Store.getRecord id (world (snd (handle E R H c s))) = Some r.
Proof.
  intros Hr. destruct (handle_store H c s) as [Hsame|(Hp & eid & _ & Hw)].
  - unfold Store.getRecord. now rewrite Hsame.
  - rewrite Hw. now apply mark_keeps_record.
Qed.

Lemma handle_well_keyed (H : Impl X) (c : Command) (s : State X) :
  well_keyed (world s) -> well_keyed (world (snd (handle E R H c s))).
Proof.
  intros Hk. destruct (handle_store H c s) as [Hsame|(Hp & eid & _ & Hw)].
  - intros k r. unfold Store.getRecord. rewrite Hsame. apply Hk.
  - rewrite Hw. now apply mark_well_keyed.
Qed.

(** X20.  Through any series of commands handled one after the other, by
    whatever handlers, a record once stored is never replaced or removed,
    and every record stays under its own command id. *)
Theorem submissions_keep_records
    (jobs : list (Impl X * Command)) (s : State X) :
  (forall id r, Store.getRecord id (world s) = Some r ->
     Store.getRecord id (world (submit_all E R jobs s)) = Some r) /\
  (well_keyed (world s) -> well_keyed (world (submit_all E R jobs s))).
Proof.
  revert s. induction jobs as [|[H c] jobs IH]; intros s; [split; auto|].
  simpl. destruct (IH (snd (handle E R H c s))) as [Hkeep Hkey]. split.
  - intros id r Hr. apply Hkeep. now apply handle_keeps_record.
  - intros Hk. apply Hkey. now apply handle_well_keyed.
Qed.

(** X21.  Once a command id is processed, commands that carry it,
    whatever their type or fields and whichever handler receives them,
    are all turned away at the duplicate check: no [validate], [execute]
    or [markProcessed] is called, the collaborator and the store are left
    as they were, and at most one event per command is written. *)
Theorem resubmissions_are_turned_away
    (jobs : list (Impl X * Command)) (s : State X) (id : string) :
  Store.isProcessed id (world s) = true ->
  Forall (fun job => command_id (snd job) = id) jobs ->
  calls (submit_all E R jobs s) = calls s /\
  domain (submit_all E R jobs s) = domain s /\
  processedCommands (world (submit_all E R jobs s)) =
    processedCommands (world s) /\
  (length (console (world (submit_all E R jobs s))) <=
   length (console (world s)) + length jobs)%nat.
Proof.
  revert s. induction jobs as [|[H c] jobs IH]; intros s Hp Hall.
  - simpl. repeat split; auto. lia.
  - apply Forall_cons in Hall as [Hid Hall']. simpl in Hid. simpl.
    assert (Hh : handle E R H c s = rejectDuplicate E R c s)
      by (unfold handle; now rewrite Hid, Hp).
    destruct (rejectDuplicate_rejected E R c s)
      as (event & (_ & Hs & Hrej) & _ & Hd & Hc).
    rewrite <- Hh in Hs, Hrej, Hd, Hc.
    assert (Hp1 : Store.isProcessed id (world (snd (handle E R H c s))) = true)
      by (rewrite (isProcessed_same _ _ _ Hs); exact Hp).
    destruct (IH (snd (handle E R H c s)) Hp1 Hall') as (Hc' & Hd' & Hs' & Hlen).
    rewrite Hc', Hd', Hs', Hc, Hd, Hs. repeat split.
    assert (Hone : (length (console (world (snd (handle E R H c s)))) <=
                    S (length (console (world s))))%nat).
    { destruct (Gate.validateEvent R event) as [[]|e'].
      - destruct Hrej as (i & _ & _ & ->). rewrite length_app. simpl. lia.
      - destruct Hrej as [_ ->]. lia. }
    lia.
Qed.

(** X22.  When [handle] is resumed after [execute] and finds the command
    id processed in the meantime, the error of [markProcessed] does not
    leave [handle]: it is classified like any other, by its message
    "Command <id> already processed", and answered with a rejection; the
    record written in the meantime is kept. *)
Theorem late_mark_failure_is_a_rejection (c : Command) (eid : string)
    (s : State X) :
  Store.isProcessed (command_id c) (world s) = true ->
  exists event,
    rejected_with R event ("Command " +:+ command_id c +:+ " already processed")
      s (handle_resume E R (Awaiting c (Js.Return eid)) s) /\
    Emitter.event_reason_code event =
      Js.Str (Emitter.reason_string
                (spec_reason ("Command " +:+ command_id c
                              +:+ " already processed"))) /\
    calls (snd (handle_resume E R (Awaiting c (Js.Return eid)) s)) =
      calls s ++ [CallMarkProcessed (command_id c)].
Proof.
  intros Hp. simpl. unfold commit. unfold Store.markProcessed. simpl.
  rewrite Hp.
  destruct (handleRejection_rejected E R c
              (Js.Error ("Command " +:+ command_id c +:+ " already processed"))
              (set_world (world s)
                 (log_call (CallMarkProcessed (command_id c)) s)) eq_refl)
    as (event & Hrej & Hcode & _ & _ & Hc).
  exists event. split; [exact Hrej|]. split; [exact Hcode | exact Hc].
Qed.

Lemma emitFor_event (c : Command) (e : Js.Err) (w : World) :
  exists event,
    Emitter.outcome_for R event w (emitFor E R c e w) /\
    Js.get "reason_message" (Js.get "payload" event) =
      Js.Str (match spec_reason (Js.message e) with
              | Emitter.INVALID_SCHEMA =>
                  "Command validation failed: " +:+ Js.message e
              | Emitter.INSUFFICIENT_FUNDS =>
                  "Insufficient funds: required 0, available 0"
              | Emitter.INVALID_STATE_TRANSITION =>
                  "Invalid state transition: unknown -> unknown"
              | _ => "Business rule violation: " +:+ Js.message e
              end) /\
    match spec_reason (Js.message e) with
    | Emitter.INVALID_SCHEMA =>
        Emitter.event_metadata "validation_error" event = Js.Str (Js.message e)
    | Emitter.BUSINESS_RULE_VIOLATION =>
        Emitter.event_metadata "rule_violation" event = Js.Str (Js.message e)
    | _ => True
    end /\
    Js.get "correlation_id" event =
      Js.Str (Emitter.correlation_or (correlation_id c)
                (uuidv4_at E (uuids_drawn w))).
Proof.
  unfold emitFor, spec_reason.
  destruct (Js.includes "validation" (Js.message e));
    [|destruct (Js.includes "insufficient funds" (Js.message e));
      [|destruct (Js.includes "state transition" (Js.message e))]];
    (eexists; split; [refine (helper_outcome E R _ _)|]); repeat split.
Qed.

(** X23.  For an error object with its message, the rejection event
    [handleRejection] builds words its message by classification: the
    error's message after "Command validation failed: " or "Business rule
    violation: ", with the message again in the metadata; but the fixed
    texts "Insufficient funds: required 0, available 0" and "Invalid
    state transition: unknown -> unknown" for the other two, where the
    error's own message is only in the returned result.  The command's
    correlation id goes onto the event. *)
Theorem rejection_event_wording (c : Command) (e : Js.Err) (s : State X) :
  Js.has_message e = true ->
  exists event,
    rejected_with R event (Js.message e) s (handleRejection E R c e s) /\
    Js.get "reason_message" (Js.get "payload" event) =
      Js.Str (match spec_reason (Js.message e) with
              | Emitter.INVALID_SCHEMA =>
                  "Command validation failed: " +:+ Js.message e
              | Emitter.INSUFFICIENT_FUNDS =>
                  "Insufficient funds: required 0, available 0"
              | Emitter.INVALID_STATE_TRANSITION =>
                  "Invalid state transition: unknown -> unknown"
              | _ => "Business rule violation: " +:+ Js.message e
              end) /\
    match spec_reason (Js.message e) with
    | Emitter.INVALID_SCHEMA =>
        Emitter.event_metadata "validation_error" event = Js.Str (Js.message e)
    | Emitter.BUSINESS_RULE_VIOLATION =>
        Emitter.event_metadata "rule_violation" event = Js.Str (Js.message e)
    | _ => True
    end /\
    (forall corr, correlation_id c = Some corr -> corr <> "" ->
       Js.get "correlation_id" event = Js.Str corr).
Proof.
  intros Hhas.
  destruct (emitFor_event c e (world s)) as (event & Ho & Hmsg & Hmeta & Hcorr).
  exists event. split; [|split; [exact Hmsg|split; [exact Hmeta|]]].
  - rewrite (handleRejection_unfold E R c e s Hhas). unfold rejected_with.
    destruct Ho as (Hty & Hstore & Ho).
    destruct (emitFor E R c e (world s)) as [[id|e'] w']; simpl in *;
      (split; [exact Hty|]); (split; [exact Hstore|]);
      destruct (Gate.validateEvent R event) as [[]|e''].
    + destruct Ho as (id' & Hid & [= ->] & Hc). eauto.
    + now destruct Ho.
    + now destruct Ho as (id' & _ & ? & _).
    + destruct Ho as [[= ->] Hc]. auto.
  - intros corr Hsome Hne. rewrite Hcorr, Hsome. simpl.
    apply String.eqb_neq in Hne. now rewrite Hne.
Qed.

Lemma handle_executed (H : Impl X) (c : Command) (s : State X)
    (u : unit) (x1 x2 : X) (eid : string) :
  Store.isProcessed (command_id c) (world s) = false ->
  validate H c (domain s) = (Js.Return u, x1) ->
  execute H c x1 = (Js.Return eid, x2) ->
  fst (handle E R H c s) =
    Js.Return {| success := true; event_id := Some eid;
                 rejection_event_id := None; reason := None |} /\
  Store.isProcessed (command_id c) (world (snd (handle E R H c s))) = true.
Proof.
  intros Hp Hv Hx. unfold handle. rewrite Hp. simpl. rewrite Hv. simpl.
  rewrite Hx.
  destruct (commit_absent E R c eid
              (set_domain x2 (log_call (CallExecute c)
                 (set_domain x1 (log_call (CallValidate c) s)))) Hp)
    as (w' & -> & Hp' & _).
  auto.
Qed.

Lemma handle_validates (H : Impl X) (c : Command) (s : State X) :
  Store.isProcessed (command_id c) (world s) = false ->
  exists rest, calls (snd (handle E R H c s)) = calls s ++ CallValidate c :: rest.
Proof.
  intros Hp. pose proof (handle_path E R H c s) as Hpath.
  remember (handle E R H c s) as out eqn:Hout in *.
  destruct Hpath as [Hd|e x1 _ Hv|u e x1 x2 _ Hv Hx|u eid x1 x2 _ Hv Hx];
    [congruence| | |].
  - destruct (handleRejection_frame E R c e
                (set_domain x1 (log_call (CallValidate c) s)))
      as (_ & _ & Hc).
    exists []. exact Hc.
  - destruct (handleRejection_frame E R c e
                (set_domain x2 (log_call (CallExecute c)
                   (set_domain x1 (log_call (CallValidate c) s)))))
      as (_ & _ & Hc).
    exists [CallExecute c]. rewrite Hc. simpl. now rewrite <- app_assoc.
  - rewrite commit_absent_world by exact Hp. simpl.
    exists [CallExecute c; CallMarkProcessed (command_id c)].
    now rewrite <- !app_assoc.
Qed.

(** X24.  A command that failed in [validate] or [execute] can be
    submitted again under the same id: the second call is not a
    duplicate, it validates anew, and when [validate] and [execute] now
    return it succeeds with the new event id and marks the id. *)
Theorem failed_command_can_be_retried (H : Impl X) (c : Command)
    (s : State X) (e : Js.Err) :
  Store.isProcessed (command_id c) (world s) = false ->
  raised H c (domain s) e ->
  let s1 := snd (handle E R H c s) in
  Store.isProcessed (command_id c) (world s1) = false /\
  (exists rest,
     calls (snd (handle E R H c s1)) = calls s1 ++ CallValidate c :: rest) /\
  (forall u x1 x2 eid,
     validate H c (domain s1) = (Js.Return u, x1) ->
     execute H c x1 = (Js.Return eid, x2) ->
     fst (handle E R H c s1) =
       Js.Return {| success := true; event_id := Some eid;
                    rejection_event_id := None; reason := None |} /\
     Store.isProcessed (command_id c) (world (snd (handle E R H c s1))) = true).
Proof.
  intros Hp Hr s1.
  assert (Hp1 : Store.isProcessed (command_id c) (world s1) = false).
  { subst s1. destruct (raised_path E R H c s e Hp Hr) as (s0 & -> & Hw & _).
    destruct (handleRejection_frame E R c e s0) as (Hstore & _).
    now rewrite (isProcessed_same _ _ _ Hstore), Hw. }
  split; [exact Hp1|]. split; [now apply handle_validates|].
  intros u x1 x2 eid Hv Hx. now apply (handle_executed H c s1 u x1 x2 eid).
Qed.

Lemma rejected_new_event (event : Js.Val) (why : string) (s0 : State X)
    (out : Js.Completion CommandResult * State X) :
  rejected_with R event why s0 out ->
  exists new,
    console (world (snd out)) = console (world s0) ++ new /\
    (length new <= 1)%nat /\
    Forall (fun ev => Emitter.is_rejection_event ev /\
                      Gate.validateEvent R ev = Js.Return tt) new /\
    (forall r, fst out = Js.Return r ->
       success r = false /\
       exists ev id, new = [ev] /\ Js.get "event_id" ev = Js.Str id /\
                     rejection_event_id r = Some id).
Proof.
  intros (Hty & _ & Hrej).
  destruct (Gate.validateEvent R event) as [[]|e'] eqn:Hv.
  - destruct Hrej as (id & Hid & Hres & Hcon). exists [event].
    split; [exact Hcon|]. split; [simpl; lia|]. split; [repeat constructor; auto|].
    intros r Hr. rewrite Hres in Hr. injection Hr as <-. simpl.
    split; [reflexivity|]. now exists event, id.
  - destruct Hrej as [Hres Hcon]. exists []. rewrite app_nil_r.
    split; [exact Hcon|]. split; [simpl; lia|]. split; [constructor|].
    intros r Hr. congruence.
Qed.

Lemma handleRejection_no_message (c : Command) (e : Js.Err) (s : State X) :
  Js.has_message e = false ->
  exists e', handleRejection E R c e s = (Js.Throw e', s).
Proof. destruct e; try discriminate. intros _. now eexists. Qed.

(** X25.  A call of [handle] appends at most one event to what has been
    written, and only a rejection event that passed [validateEvent].  On
    a success result it writes none; on a failure result it has written
    exactly one, and the result's [rejection_event_id] is that event's
    [event_id]. *)
Theorem handle_writes_at_most_one_event (H : Impl X) (c : Command)
    (s : State X) :
  exists new,
    console (world (snd (handle E R H c s))) = console (world s) ++ new /\
    (length new <= 1)%nat /\
    Forall (fun ev => Emitter.is_rejection_event ev /\
                      Gate.validateEvent R ev = Js.Return tt) new /\
    (forall r, fst (handle E R H c s) = Js.Return r ->
       (success r = true -> new = []) /\
       (success r = false ->
        exists ev id, new = [ev] /\ Js.get "event_id" ev = Js.Str id /\
                      rejection_event_id r = Some id)).
Proof.
  assert (Hlift : forall event why (s0 : State X) out,
            world s0 = world s -> rejected_with R event why s0 out ->
            exists new,
              console (world (snd out)) = console (world s) ++ new /\
              (length new <= 1)%nat /\
              Forall (fun ev => Emitter.is_rejection_event ev /\
                                Gate.validateEvent R ev = Js.Return tt) new /\
              (forall r, fst out = Js.Return r ->
                 (success r = true -> new = []) /\
                 (success r = false ->
                  exists ev id, new = [ev] /\ Js.get "event_id" ev = Js.Str id /\
                                rejection_event_id r = Some id))).
  { intros event why s0 out Hw Hrej.
    destruct (rejected_new_event event why s0 out Hrej)
      as (new & Hcon & Hlen & Hall & Hres).
    exists new. rewrite <- Hw. repeat (split; [assumption|]).
    intros r Hr. destruct (Hres r Hr) as [Hf Hev]. split; [congruence | auto]. }
  assert (Hcatch : forall e (s0 : State X),
            world s0 = world s ->
            exists new,
              console (world (snd (handleRejection E R c e s0))) =
                console (world s) ++ new /\
              (length new <= 1)%nat /\
              Forall (fun ev => Emitter.is_rejection_event ev /\
                                Gate.validateEvent R ev = Js.Return tt) new /\
              (forall r, fst (handleRejection E R c e s0) = Js.Return r ->
                 (success r = true -> new = []) /\
                 (success r = false ->
                  exists ev id, new = [ev] /\ Js.get "event_id" ev = Js.Str id /\
                                rejection_event_id r = Some id))).
  { intros e s0 Hw. destruct (Js.has_message e) eqn:Hmsg.
    - destruct (handleRejection_rejected E R c e s0 Hmsg) as (event & Hrej & _).
      now apply (Hlift event (Js.message e) s0).
    - destruct (handleRejection_no_message c e s0 Hmsg) as (e' & ->).
      exists []. simpl. rewrite app_nil_r, Hw.
      split; [reflexivity|]. split; [lia|]. split; [constructor|].
      discriminate. }
  pose proof (handle_path E R H c s) as Hpath.
  remember (handle E R H c s) as out eqn:Hout in *.
  destruct Hpath as [Hd|e x1 Hp Hv|u e x1 x2 Hp Hv Hx|u eid x1 x2 Hp Hv Hx].
  - destruct (rejectDuplicate_rejected E R c s) as (event & Hrej & _).
    now apply (Hlift event "Duplicate command" s).
  - apply (Hcatch e (set_domain x1 (log_call (CallValidate c) s)) eq_refl).
  - apply (Hcatch e (set_domain x2 (log_call (CallExecute c)
                       (set_domain x1 (log_call (CallValidate c) s)))) eq_refl).
  - destruct (commit_absent E R c eid
                (set_domain x2 (log_call (CallExecute c)
                   (set_domain x1 (log_call (CallValidate c) s)))) Hp)
      as (w' & -> & _ & Hcon).
    exists []. simpl. rewrite app_nil_r. split; [exact Hcon|].
    split; [lia|]. split; [constructor|].
    intros r [= <-]. split; [reflexivity | discriminate].
Qed.

End HandlerMore.

(* ===================================================================== *)
(** * The further properties on the test handler                          *)
(* ===================================================================== *)

Section ScenariosMore.
Import Runtime Handler Fixtures.

Lemma success_records_the_event_witness :
  exists record,
    Store.getRecord "cmd-success"
      (world (snd (handle env accepting TestCommandHandler
                     (command "cmd-success") start))) = Some record /\
    Runtime.command_type record = "TestCommand" /\
    result_event_id record = Some "evt-success".
Proof.
  destruct (success_records_the_event env accepting TestCommandHandler
              (command "cmd-success") start
              {| success := true; event_id := Some "evt-success";
                 rejection_event_id := None; reason := None |})
    as (record & Hrec & _ & Hty & Hev & _).
  - vm_compute. reflexivity.
  - reflexivity.
  - exists record. split; [exact Hrec|]. split; [exact Hty | exact Hev].
Defined.

Lemma failure_stops_the_pipeline_witness :
  calls (snd (handle env accepting TestCommandHandler (command "") start)) =
    [CallValidate (command "")] /\
  calls (snd (handle env accepting TestCommandHandler (command "cmd-fail") start)) =
    [CallValidate (command "cmd-fail"); CallExecute (command "cmd-fail")].
Proof.
  split.
  - apply (proj1 (failure_stops_the_pipeline env accepting TestCommandHandler
                    (command "") start eq_refl)
             (Js.Error "validation: Missing command_id") tt).
    reflexivity.
  - apply (proj2 (failure_stops_the_pipeline env accepting TestCommandHandler
                    (command "cmd-fail") start eq_refl)
             tt (Js.Error "Business rule violation: Test failure") tt tt);
      reflexivity.
Defined.

Lemma resubmissions_are_turned_away_witness :
  let s1 := snd (handle env accepting TestCommandHandler
                   (command "cmd-duplicate") start) in
  let again := {| command_id := "cmd-duplicate"; command_type := "OtherCommand";
                  correlation_id := Some "corr-9"; fields := [] |} in
  calls (Usage.submit_all env accepting
           [(TestCommandHandler, command "cmd-duplicate");
            (TestCommandHandler, again)] s1) = calls s1.
Proof.
  intros s1 again.
  apply (resubmissions_are_turned_away env accepting
           [(TestCommandHandler, command "cmd-duplicate");
            (TestCommandHandler, again)] s1 "cmd-duplicate").
  - vm_compute. reflexivity.
  - repeat constructor.
Defined.

Lemma late_mark_failure_is_a_rejection_witness :
  let s1 := snd (handle env accepting TestCommandHandler
                   (command "cmd-100") start) in
  calls (snd (handle_resume env accepting
                (Awaiting (command "cmd-100") (Js.Return "evt-success")) s1)) =
  calls s1 ++ [CallMarkProcessed "cmd-100"].
Proof.
  intros s1.
  destruct (late_mark_failure_is_a_rejection env accepting
              (command "cmd-100") "evt-success" s1) as (event & _ & _ & Hc).
  - vm_compute. reflexivity.
  - exact Hc.
Defined.

Lemma rejection_event_wording_witness :
  exists event,
    rejected_with accepting event "insufficient funds for transfer" start
      (handleRejection env accepting (command "cmd-100")
         (Js.Error "insufficient funds for transfer") start) /\
    Js.get "reason_message" (Js.get "payload" event) =
      Js.Str "Insufficient funds: required 0, available 0".
Proof.
  destruct (rejection_event_wording env accepting (command "cmd-100")
              (Js.Error "insufficient funds for transfer") start eq_refl)
    as (event & Hrej & Hmsg & _).
  exists event. split; [exact Hrej | exact Hmsg].
Defined.

Lemma failed_command_can_be_retried_witness :
  Store.isProcessed "cmd-fail"
    (world (snd (handle env accepting TestCommandHandler
                   (command "cmd-fail") start))) = false.
Proof.
  apply (failed_command_can_be_retried env accepting TestCommandHandler
           (command "cmd-fail") start
           (Js.Error "Business rule violation: Test failure")).
  - reflexivity.
  - right. exists tt, tt, tt. split; reflexivity.
Defined.

End ScenariosMore.
